(** * A shallow embedding of the SQL agent core (agent.py, tools.py, utils.py)

    Python [str] values are modelled as Rocq [string]s over 7-bit ASCII;
    the character classes below ([\s], [\w], [str.upper], [str.strip])
    are Python's on that range. *)

From Stdlib Require Import Strings.String Strings.Ascii Lists.List Bool.Bool
  ZArith Arith Lia Numbers.DecimalString.
Import ListNotations.
Open Scope list_scope.
Open Scope string_scope.
Set Warnings "-register-all".


(** ** Characters and strings *)

Definition code (c : ascii) : nat := nat_of_ascii c.

(** Python's [str.isspace] / regex [\s] on ASCII: 9-13, 28-31 and space. *)
Definition is_space (c : ascii) : bool :=
  let n := code c in ((Nat.leb 9 n) && (Nat.leb n 13)) || ((Nat.leb 28 n) && (Nat.leb n 32)).

Definition is_digit (c : ascii) : bool :=
  let n := code c in (Nat.leb 48 n) && (Nat.leb n 57).

Definition is_alpha (c : ascii) : bool :=
  let n := code c in ((Nat.leb 65 n) && (Nat.leb n 90)) || ((Nat.leb 97 n) && (Nat.leb n 122)).

(** Regex [\w]: letters, digits and underscore. *)
Definition is_word (c : ascii) : bool :=
  is_alpha c || is_digit c || (Nat.eqb (code c) 95).

Definition upper_char (c : ascii) : ascii :=
  let n := code c in if (Nat.leb 97 n) && (Nat.leb n 122) then ascii_of_nat (n - 32) else c.

Definition lower_char (c : ascii) : ascii :=
  let n := code c in if (Nat.leb 65 n) && (Nat.leb n 90) then ascii_of_nat (n + 32) else c.

(** [str.upper] *)
Fixpoint upper (s : string) : string :=
  match s with
  | EmptyString => EmptyString
  | String c s' => String (upper_char c) (upper s')
  end.

Fixpoint lstrip_by (p : ascii -> bool) (s : string) : string :=
  match s with
  | EmptyString => EmptyString
  | String c s' => if p c then lstrip_by p s' else s
  end.

Fixpoint rstrip_by (p : ascii -> bool) (s : string) : string :=
  match s with
  | EmptyString => EmptyString
  | String c s' =>
      let r := rstrip_by p s' in
      if String.eqb r EmptyString && p c then EmptyString else String c r
  end.

(** [str.strip()] and [str.strip(ch)] / [str.rstrip(ch)] for one char. *)
Definition strip (s : string) : string := rstrip_by is_space (lstrip_by is_space s).
Definition strip_char (ch : ascii) (s : string) : string :=
  rstrip_by (Ascii.eqb ch) (lstrip_by (Ascii.eqb ch) s).
Definition rstrip_char (ch : ascii) (s : string) : string :=
  rstrip_by (Ascii.eqb ch) s.

Fixpoint sdrop (n : nat) (s : string) : string :=
  match n, s with
  | O, _ => s
  | S n', EmptyString => EmptyString
  | S n', String _ s' => sdrop n' s'
  end.

Fixpoint stake (n : nat) (s : string) : string :=
  match n, s with
  | O, _ => EmptyString
  | S n', EmptyString => EmptyString
  | S n', String c s' => String c (stake n' s')
  end.

Definition head_opt (s : string) : option ascii :=
  match s with EmptyString => None | String c _ => Some c end.

Fixpoint last_opt (s : string) : option ascii :=
  match s with
  | EmptyString => None
  | String c EmptyString => Some c
  | String _ s' => last_opt s'
  end.

(** [sub in s] *)
Fixpoint contains (sub s : string) : bool :=
  prefix sub s || match s with EmptyString => false | String _ s' => contains sub s' end.

(** [s.count(ch)] *)
Fixpoint count_char (ch : ascii) (s : string) : nat :=
  match s with
  | EmptyString => O
  | String c s' => (if Ascii.eqb c ch then 1 else 0) + count_char ch s'
  end.

(** Case-insensitive prefix test (a literal under [re.IGNORECASE]). *)
Fixpoint prefix_ci (p s : string) : bool :=
  match p, s with
  | EmptyString, _ => true
  | String a p', String b s' => Ascii.eqb (lower_char a) (lower_char b) && prefix_ci p' s'
  | String _ _, EmptyString => false
  end.

(** [span p s]: the longest prefix of [s] whose chars satisfy [p], and the rest. *)
Fixpoint span (p : ascii -> bool) (s : string) : string * string :=
  match s with
  | EmptyString => (EmptyString, EmptyString)
  | String c s' =>
      if p c then let (a, b) := span p s' in (String c a, b) else (EmptyString, s)
  end.

Fixpoint join (sep : string) (l : list string) : string :=
  match l with
  | [] => EmptyString
  | [x] => x
  | x :: l' => x ++ sep ++ join sep l'
  end.

Definition or_default (s d : string) : string := if String.eqb s EmptyString then d else s.

Definition string_of_nat (n : nat) : string := NilEmpty.string_of_uint (Nat.to_uint n).
Definition string_of_Z (z : Z) : string := NilEmpty.string_of_int (Z.to_int z).

Definition dqc : ascii := "034"%char.
Definition dq : string := String dqc EmptyString.

(** ** Regular-expression matchers used by the source *)

Definition word_opt (o : option ascii) : bool :=
  match o with Some c => is_word c | None => false end.

(** [re.search(rf'\b{kw}\b', s)]: [prev] is the char before the current
    position, [None] at the start of the text. *)
Fixpoint search_bounded_from (prev : option ascii) (kw s : string) : bool :=
  (xorb (word_opt prev) (word_opt (head_opt s)) && prefix kw s
    && xorb (word_opt (last_opt kw)) (word_opt (head_opt (sdrop (String.length kw) s))))
  || match s with
     | EmptyString => false
     | String c s' => search_bounded_from (Some c) kw s'
     end.

Definition search_bounded (kw s : string) : bool := search_bounded_from None kw s.

Definition ident_start (c : ascii) : bool := is_alpha c || (Nat.eqb (code c) 95).
Definition ident_char (c : ascii) : bool := is_word c.

(** One match of [kw\s+([A-Za-z_][A-Za-z0-9_]* )] (IGNORECASE) at the start
    of [s]: the captured identifier and the text after the match. *)
Definition match_kw_ident (kw s : string) : option (string * string) :=
  if prefix_ci kw s then
    let (ws, r1) := span is_space (sdrop (String.length kw) s) in
    if String.eqb ws EmptyString then None
    else match r1 with
         | String c _ => if ident_start c then Some (span ident_char r1) else None
         | EmptyString => None
         end
  else None.

Fixpoint findall_fuel (fuel : nat) (kw s : string) : list string :=
  match fuel with
  | O => []
  | S fuel' =>
      match s with
      | EmptyString => []
      | String _ s' =>
          match match_kw_ident kw s with
          | Some (id, rest) => id :: findall_fuel fuel' kw rest
          | None => findall_fuel fuel' kw s'
          end
      end
  end.

(** [re.findall(kw + r"\s+([A-Za-z_][A-Za-z0-9_]* )", s, flags=re.IGNORECASE)] *)
Definition findall_kw_ident (kw s : string) : list string :=
  findall_fuel (S (String.length s)) kw s.

(** ** utils.validate_sql *)

Definition forbidden : list string :=
  ["INSERT"; "UPDATE"; "DELETE"; "DROP"; "ALTER";
   "CREATE"; "TRUNCATE"; "REPLACE"; "PRAGMA"].

Definition query_upper (query : string) : string := upper (strip query).

Fixpoint first_forbidden (kws : list string) (u : string) : option string :=
  match kws with
  | [] => None
  | k :: ks => if search_bounded k u then Some k else first_forbidden ks u
  end.

Definition tables_in_query (u : string) : list string :=
  (findall_kw_ident "FROM" u ++ findall_kw_ident "JOIN" u)%list.

Definition table_clean (t : string) : string :=
  strip_char "`" (strip_char "'" (strip_char dqc t)).

Fixpoint first_unknown (tables allowed_upper : list string) : option string :=
  match tables with
  | [] => None
  | t :: ts =>
      if existsb (String.eqb (table_clean t)) allowed_upper then first_unknown ts allowed_upper
      else Some t
  end.

Definition unknown_table_msg (table : string) (allowed_tables : list string) : string :=
  "Unknown or disallowed table '" ++ table ++ "'. " ++
  "Available tables: " ++ join ", " allowed_tables ++ ". " ++
  "Use list_tables or describe_table first.".

Definition select_only_msg : string := "Only SELECT queries are allowed (read-only mode)".

Definition validate_sql (query : string) (allowed_tables : list string) : bool * string :=
  let query_stripped := strip query in
  let query_upper := upper query_stripped in
  if negb (prefix "SELECT" query_upper) then (false, select_only_msg)
  else match first_forbidden forbidden query_upper with
  | Some keyword =>
      (false, "Forbidden keyword '" ++ keyword ++ "' detected. Only SELECT queries allowed.")
  | None =>
      match first_unknown (tables_in_query query_upper) (map upper allowed_tables) with
      | Some table => (false, unknown_table_msg table allowed_tables)
      | None =>
          if Nat.ltb 1 (count_char ";" query_stripped) then (false, "Multiple statements not allowed")
          else
            let query_clean := rstrip_char ";" query_stripped in
            if negb (contains "LIMIT" query_upper) then (true, query_clean ++ " LIMIT 100")
            else (true, query_clean)
      end
  end.

(** ** Python values and exceptions *)

Inductive pyval : Type :=
| PNone
| PBool (b : bool)
| PInt (z : Z)
| PFloat (r : string)          (** a float, carried by its [repr] *)
| PStr (s : string)
| PBytes (s : string)
| PList (l : list pyval)
| PTuple (l : list pyval)
| PDict (kv : list (pyval * pyval)).

Record exn : Type := mk_exn { exn_kind : string; exn_msg : string }.

Inductive res (A : Type) : Type :=
| Ok (a : A)
| Err (e : exn).
Arguments Ok {A} a.
Arguments Err {A} e.

Definition bind {A B : Type} (m : res A) (k : A -> res B) : res B :=
  match m with Ok a => k a | Err e => Err e end.

Notation "'let*' x := m 'in' k" := (bind m (fun x => k))
  (at level 200, x name, m at level 100, k at level 200).

Definition raise {A : Type} (kind msg : string) : res A := Err (mk_exn kind msg).

Definition py_type_name (v : pyval) : string :=
  match v with
  | PNone => "NoneType" | PBool _ => "bool" | PInt _ => "int" | PFloat _ => "float"
  | PStr _ => "str" | PBytes _ => "bytes" | PList _ => "list" | PTuple _ => "tuple"
  | PDict _ => "dict"
  end.

Definition hex_digit (n : nat) : ascii :=
  if Nat.ltb n 10 then ascii_of_nat (48 + n) else ascii_of_nat (87 + n).

Definition hex2 (n : nat) : string :=
  String (hex_digit (n / 16)) (String (hex_digit (n mod 16)) EmptyString).

(** [str.isprintable] on the Latin-1 range. *)
Definition printable (c : ascii) : bool :=
  let n := code c in
  (Nat.leb 32 n && Nat.leb n 126) || (Nat.leb 161 n && negb (Nat.eqb n 173)).

Definition repr_quote (s : string) : ascii :=
  if contains "'" s && negb (contains dq s) then dqc else "'"%char.

Fixpoint repr_body (q : ascii) (bytes : bool) (s : string) : string :=
  match s with
  | EmptyString => EmptyString
  | String c s' =>
      let n := code c in
      (if Ascii.eqb c q || Nat.eqb n 92 then String "\"%char (String c EmptyString)
       else if Nat.eqb n 9 then "\t"
       else if Nat.eqb n 10 then "\n"
       else if Nat.eqb n 13 then "\r"
       else if (if bytes then Nat.leb 32 n && Nat.leb n 126 else printable c)
            then String c EmptyString
       else "\x" ++ hex2 n) ++ repr_body q bytes s'
  end.

(** [repr(s)] of a [str] *)
Definition str_repr (s : string) : string :=
  let q := repr_quote s in String q (repr_body q false s ++ String q EmptyString).

(** [repr(b)] of a [bytes] *)
Definition bytes_repr (s : string) : string :=
  let q := repr_quote s in "b" ++ String q (repr_body q true s ++ String q EmptyString).

(** [repr(v)] *)
Fixpoint py_repr (v : pyval) : string :=
  match v with
  | PNone => "None"
  | PBool true => "True"
  | PBool false => "False"
  | PInt z => string_of_Z z
  | PFloat r => r
  | PStr s => str_repr s
  | PBytes s => bytes_repr s
  | PList l => "[" ++ join ", " (map py_repr l) ++ "]"
  | PTuple [x] => "(" ++ py_repr x ++ ",)"
  | PTuple l => "(" ++ join ", " (map py_repr l) ++ ")"
  | PDict kv =>
      "{" ++ join ", " (map (fun kx => py_repr (fst kx) ++ ": " ++ py_repr (snd kx)) kv) ++ "}"
  end.

(** [str(v)] *)
Definition py_str (v : pyval) : string :=
  match v with PStr s => s | _ => py_repr v end.

(** Truthiness of a value. *)
Definition truthy (v : pyval) : bool :=
  match v with
  | PNone => false
  | PBool b => b
  | PInt z => negb (Z.eqb z 0)
  | PFloat r => negb (String.eqb r "0.0" || String.eqb r "-0.0")
  | PStr s | PBytes s => negb (String.eqb s EmptyString)
  | PList l | PTuple l => match l with [] => false | _ => true end
  | PDict kv => match kv with [] => false | _ => true end
  end.

Fixpoint hashable (v : pyval) : bool :=
  match v with
  | PList _ | PDict _ => false
  | PTuple l => forallb hashable l
  | _ => true
  end.

(** The numbers [==] compares: a finite value [m * 10^e], an infinity, NaN. *)
Inductive pynum : Type :=
| NFin (m e : Z)
| NInf (neg : bool)
| NNaN.

Fixpoint digits_val (acc : Z) (s : string) : Z :=
  match s with
  | EmptyString => acc
  | String c s' => digits_val (10 * acc + Z.of_nat (code c - 48)) s'
  end.

(** The number a float [repr] stands for: [inf], [-inf], [nan], or
    [-?d+(.d* )?(e[+-]?d+)?] (as in [1.5], [-0.0], [1e+16], [2.5e-07]). *)
Definition float_of_repr (r : string) : option pynum :=
  if String.eqb r "inf" then Some (NInf false)
  else if String.eqb r "-inf" then Some (NInf true)
  else if String.eqb r "nan" then Some NNaN
  else
    let (neg, r1) := match r with
                     | String c r' => if Ascii.eqb c "-" then (true, r') else (false, r)
                     | EmptyString => (false, r)
                     end in
    let (ip, r2) := span is_digit r1 in
    let (fp, r3) := match r2 with
                    | String c r' => if Ascii.eqb c "." then span is_digit r' else (EmptyString, r2)
                    | EmptyString => (EmptyString, r2)
                    end in
    let ex := match r3 with
              | EmptyString => Some 0%Z
              | String c r' =>
                  if Ascii.eqb c "e" then
                    let (eneg, r4) := match r' with
                                      | String d t => if Ascii.eqb d "-" then (true, t)
                                                      else if Ascii.eqb d "+" then (false, t)
                                                      else (false, r')
                                      | EmptyString => (false, r')
                                      end in
                    let (ed, r5) := span is_digit r4 in
                    if String.eqb ed EmptyString || negb (String.eqb r5 EmptyString) then None
                    else Some (if eneg then (- digits_val 0 ed)%Z else digits_val 0 ed)
                  else None
              end in
    match ex with
    | Some x =>
        if String.eqb ip EmptyString then None
        else let m := digits_val 0 (ip ++ fp) in
             Some (NFin (if neg then (- m)%Z else m) (x - Z.of_nat (String.length fp))%Z)
    | None => None
    end.

(** The numeric value of a [bool], [int] or [float]. *)
Definition num_of (v : pyval) : option pynum :=
  match v with
  | PBool b => Some (NFin (if b then 1 else 0) 0)
  | PInt z => Some (NFin z 0)
  | PFloat r => float_of_repr r
  | _ => None
  end.

(** [==] on numbers, exact: [1 == 1.0 == True] and [0.0 == -0.0], while NaN
    equals nothing. *)
Definition num_eqb (x y : pynum) : bool :=
  match x, y with
  | NFin m1 e1, NFin m2 e2 =>
      let e := Z.min e1 e2 in Z.eqb (m1 * 10 ^ (e1 - e)) (m2 * 10 ^ (e2 - e))
  | NInf a, NInf b => Bool.eqb a b
  | _, _ => false
  end.

(** Key equality [==] on hashable keys: a [bool], [int] or [float] compares
    by its value; strings, bytes and tuples item by item.  (A dict lookup
    first matches the very key object by identity, which a value model does
    not see; it only matters for a NaN key.) *)
Fixpoint py_eq (a b : pyval) : bool :=
  match a, b with
  | PNone, PNone => true
  | PStr s, PStr s' => String.eqb s s'
  | PBytes s, PBytes s' => String.eqb s s'
  | PTuple l, PTuple l' =>
      (fix go l l' := match l, l' with
                      | [], [] => true
                      | x :: xs, y :: ys => py_eq x y && go xs ys
                      | _, _ => false
                      end) l l'
  | _, _ => match num_of a, num_of b with
            | Some x, Some y => num_eqb x y
            | _, _ => false
            end
  end.

(** [d.get(k)] on a dict with a [str] key, and [k in d]. *)
Fixpoint dict_get (k : pyval) (kv : list (pyval * pyval)) : option pyval :=
  match kv with
  | [] => None
  | (k', v) :: r => if py_eq k k' then Some v else dict_get k r
  end.

(** [d[k] = v]: an existing key keeps its position. *)
Fixpoint dict_set (k v : pyval) (kv : list (pyval * pyval)) : list (pyval * pyval) :=
  match kv with
  | [] => [(k, v)]
  | (k', v') :: r => if py_eq k k' then (k', v) :: r else (k', v') :: dict_set k v r
  end.

Definition has_key (k : string) (kv : list (pyval * pyval)) : bool :=
  match dict_get (PStr k) kv with Some _ => true | None => false end.

(** ** json.dumps (default separators, [ensure_ascii=True]) *)

Definition json_escape_char (c : ascii) : string :=
  let n := code c in
  if Nat.eqb n 34 then String "\"%char dq
  else if Nat.eqb n 92 then "\\"
  else if Nat.eqb n 10 then "\n"
  else if Nat.eqb n 13 then "\r"
  else if Nat.eqb n 9 then "\t"
  else if Nat.eqb n 8 then "\b"
  else if Nat.eqb n 12 then "\f"
  else if Nat.leb 32 n && Nat.leb n 126 then String c EmptyString
  else "\u00" ++ hex2 n.

Fixpoint json_escape (s : string) : string :=
  match s with
  | EmptyString => EmptyString
  | String c s' => json_escape_char c ++ json_escape s'
  end.

Definition json_string (s : string) : string := dq ++ json_escape s ++ dq.

(** [float.__repr__] as json writes it. *)
Definition json_float_text (r : string) : string :=
  if String.eqb r "inf" then "Infinity"
  else if String.eqb r "-inf" then "-Infinity"
  else if String.eqb r "nan" then "NaN" else r.

Definition json_key (k : pyval) : res string :=
  match k with
  | PStr s => Ok s
  | PBool true => Ok "true"
  | PBool false => Ok "false"
  | PNone => Ok "null"
  | PInt z => Ok (string_of_Z z)
  | PFloat r => Ok (json_float_text r)
  | _ => raise "TypeError" ("keys must be str, int, float, bool or None, not " ++ py_type_name k)
  end.

Fixpoint json_dumps (v : pyval) : res string :=
  let fix items (l : list pyval) : res (list string) :=
    match l with
    | [] => Ok []
    | x :: xs => let* s := json_dumps x in let* ss := items xs in Ok (s :: ss)
    end in
  let fix pairs (kv : list (pyval * pyval)) : res (list string) :=
    match kv with
    | [] => Ok []
    | (k, x) :: r =>
        let* ks := json_key k in let* s := json_dumps x in let* ss := pairs r in
        Ok ((json_string ks ++ ": " ++ s) :: ss)
    end in
  match v with
  | PNone => Ok "null"
  | PBool true => Ok "true"
  | PBool false => Ok "false"
  | PInt z => Ok (string_of_Z z)
  | PFloat r => Ok (json_float_text r)
  | PStr s => Ok (json_string s)
  | PBytes _ => raise "TypeError" "Object of type bytes is not JSON serializable"
  | PList l | PTuple l => let* ss := items l in Ok ("[" ++ join ", " ss ++ "]")
  | PDict kv => let* ss := pairs kv in Ok ("{" ++ join ", " ss ++ "}")
  end.

(** ** utils.truncate_text *)

(** [text[:j]] for an [int] bound [j]: a negative bound counts from the end. *)
Definition slice_to (s : string) (j : Z) : string :=
  if Z.ltb j 0 then stake (Z.to_nat (Z.of_nat (String.length s) + j)) s
  else stake (Z.to_nat j) s.

Definition truncate_text (text : string) (max_length : Z) : string :=
  if Z.leb (Z.of_nat (String.length text)) max_length then text
  else slice_to text max_length ++ " ...[truncated]".

(** ** utils.sanitize_identifier *)

(** [re.match(r'^[A-Za-z_][A-Za-z0-9_]*$', s)]: without MULTILINE, [$] also
    matches just before a newline that ends the string. *)
Definition identifier_match (s : string) : bool :=
  match s with
  | EmptyString => false
  | String c r =>
      ident_start c &&
      (let (_, rest) := span ident_char r in
       String.eqb rest EmptyString || String.eqb rest (String "010"%char EmptyString))
  end.

Definition sanitize_identifier (identifier : string) : res string :=
  if identifier_match identifier then Ok identifier
  else raise "ValueError" ("Invalid identifier '" ++ identifier ++ "'. " ++
         "Must start with letter/underscore and contain only alphanumeric/underscore.").

(** ** utils.retry_with_backoff *)

(** What a call of [retry_with_backoff] does, in order.  [func] is called
    once per attempt; [RRetryIn k] is the INFO line
    [Retrying in {delay} seconds...] and [RSleep k] is [time.sleep(delay)],
    where [delay] is [initial_delay] after [k] of the [delay *= 4] updates. *)
Inductive retry_event : Type :=
| RCall (attempt : nat)
| RWarn (text : string)
| RRetryIn (k : nat)
| RSleep (k : nat).

(** [func attempt] is the outcome of the [attempt]-th call of [func()]. *)
Fixpoint retry_loop {A : Type} (func : nat -> res A) (max_retries : Z)
    (attempts attempt k : nat) (last_exception : option exn) : res A * list retry_event :=
  match attempts with
  | O =>
      (match last_exception with
       | Some e => Err e
       | None => raise "TypeError" "exceptions must derive from BaseException"
       end, [])
  | S attempts' =>
      match func attempt with
      | Ok v => (Ok v, [RCall attempt])
      | Err e =>
          let warn := RWarn ("Attempt " ++ string_of_nat (S attempt) ++ "/" ++
                             string_of_Z max_retries ++ " failed: " ++ exn_msg e) in
          if Z.ltb (Z.of_nat attempt) (max_retries - 1) then
            let (r, evs) := retry_loop func max_retries attempts' (S attempt) (S k) (Some e) in
            (r, RCall attempt :: warn :: RRetryIn k :: RSleep k :: evs)
          else
            let (r, evs) := retry_loop func max_retries attempts' (S attempt) k (Some e) in
            (r, RCall attempt :: warn :: evs)
      end
  end.

Definition retry_with_backoff {A : Type} (func : nat -> res A) (max_retries : Z)
    : res A * list retry_event :=
  retry_loop func max_retries (Z.to_nat max_retries) 0 0 None.

Definition retry_calls (evs : list retry_event) : list nat :=
  flat_map (fun ev => match ev with RCall i => [i] | _ => [] end) evs.

Definition retry_sleeps (evs : list retry_event) : list nat :=
  flat_map (fun ev => match ev with RSleep k => [k] | _ => [] end) evs.

(** ** Results of the database connection, and a sample set of collaborators

    [db_result] is what [cursor.execute(sql)] followed by [fetchall()]
    yields: the sqlite3 exception, or the column names and the rows.  The
    [sample_*] definitions are one concrete choice of the collaborators the
    core is parameterised by (the repo's tests use a [sample] table of 1000
    rows): a float repr that keeps the literal, a literal evaluator that
    always raises, and a database with the tables [emp] and [sample]. *)

Inductive db_result : Type :=
| DbError (kind msg : string)
| DbRows (description : list string) (rows : list (list pyval)).

Definition nl : string := String "010"%char EmptyString.

Definition sample_json_float (lit : string) : string := lit.

Definition sample_literal_eval (_ : string) : option pyval := None.

Definition sample_tables : list string := ["emp"; "sample"].

Definition sample_db_execute (sql : string) : db_result :=
  if String.eqb sql "PRAGMA table_info(sample)" then
    DbRows ["cid"; "name"; "type"; "notnull"; "dflt_value"; "pk"]
      [[PInt 0; PStr "id"; PStr "INTEGER"; PInt 0; PNone; PInt 1];
       [PInt 1; PStr "city"; PStr "TEXT"; PInt 0; PNone; PInt 0]]
  else if prefix "SELECT" sql then DbRows ["n"] [[PInt 1000]]
  else DbError "OperationalError" "no such table".

(** Model replies used in the examples below. *)
Definition reply_final : string := "FINAL ANSWER: 42".

Definition reply_unknown_tool : string := "ACTION: foo{}".

Definition reply_list_tables : string := "THOUGHT: look around" ++ nl ++ "ACTION: list_tables{}".

Definition reply_delete : string :=
  "THOUGHT: Try a delete" ++ nl ++ "ACTION: query_database{" ++ dq ++ "query" ++ dq ++ ": "
  ++ dq ++ "DELETE FROM sample" ++ dq ++ "}".

Definition replies_first_question (k : nat) : string :=
  match k with O => reply_list_tables | _ => "FINAL ANSWER: two tables" end.


(** ** The external collaborators, and json.loads *)

Section Core.

(** [repr(float(lit))] for a JSON number literal with a fraction or an
    exponent, and for [NaN] / [Infinity] / [-Infinity]. *)
Variable json_float : string -> string.

Definition is_json_ws (c : ascii) : bool :=
  let n := code c in Nat.eqb n 32 || Nat.eqb n 9 || Nat.eqb n 10 || Nat.eqb n 13.

Definition skip_ws (s : string) : string := lstrip_by is_json_ws s.

Definition hex_val (c : ascii) : option nat :=
  let n := code c in
  if Nat.leb 48 n && Nat.leb n 57 then Some (n - 48)
  else if Nat.leb 97 n && Nat.leb n 102 then Some (n - 87)
  else if Nat.leb 65 n && Nat.leb n 70 then Some (n - 55)
  else None.

(** A [\uXXXX] escape; code points above U+00FF lie outside the
    modelled character range and are treated as undecodable. *)
Definition unicode_escape (s : string) : option (ascii * string) :=
  match s with
  | String a (String b (String c (String d r))) =>
      match hex_val a, hex_val b, hex_val c, hex_val d with
      | Some x, Some y, Some z, Some w =>
          let n := ((x * 16 + y) * 16 + z) * 16 + w in
          if Nat.ltb n 256 then Some (ascii_of_nat n, r) else None
      | _, _, _, _ => None
      end
  | _ => None
  end.

(** [py_scanstring], strict mode: the text after the opening quote. *)
Fixpoint scan_string (fuel : nat) (s : string) : option (string * string) :=
  match fuel with
  | O => None
  | S fuel' =>
      match s with
      | EmptyString => None
      | String c s' =>
          let n := code c in
          if Nat.eqb n 34 then Some (EmptyString, s')
          else if Nat.eqb n 92 then
            match s' with
            | EmptyString => None
            | String e s'' =>
                let m := code e in
                let one (x : ascii) :=
                  match scan_string fuel' s'' with
                  | Some (a, r) => Some (String x a, r) | None => None end in
                if Nat.eqb m 34 || Nat.eqb m 92 || Nat.eqb m 47 then one e
                else if Nat.eqb m 98 then one (ascii_of_nat 8)
                else if Nat.eqb m 102 then one (ascii_of_nat 12)
                else if Nat.eqb m 110 then one (ascii_of_nat 10)
                else if Nat.eqb m 114 then one (ascii_of_nat 13)
                else if Nat.eqb m 116 then one (ascii_of_nat 9)
                else if Nat.eqb m 117 then
                  match unicode_escape s'' with
                  | Some (x, r0) =>
                      match scan_string fuel' r0 with
                      | Some (a, r) => Some (String x a, r) | None => None end
                  | None => None
                  end
                else None
            end
          else if Nat.ltb n 32 then None
          else match scan_string fuel' s' with
               | Some (a, r) => Some (String c a, r) | None => None end
      end
  end.

Definition digits_value (s : string) : Z :=
  (fix go (s : string) (acc : Z) : Z :=
     match s with
     | EmptyString => acc
     | String c s' => go s' (acc * 10 + Z.of_nat (code c - 48))%Z
     end) s 0%Z.

(** [NUMBER_RE = (-?(?:0|[1-9]\d* ))(\.\d+)?([eE][-+]?\d+)?] followed by
    the int/float choice of the scanner. *)
Definition scan_number (s : string) : option (pyval * string) :=
  let (sign, s1) := match s with
                    | String "-"%char r => ("-", r)
                    | _ => (EmptyString, s)
                    end in
  let int_part :=
    match s1 with
    | String "0"%char r => Some ("0", r)
    | String c _ => if is_digit c then Some (span is_digit s1) else None
    | EmptyString => None
    end in
  match int_part with
  | None => None
  | Some (ip, r1) =>
      let (frac, r2) :=
        match r1 with
        | String "."%char r =>
            let (ds, r') := span is_digit r in
            if String.eqb ds EmptyString then (EmptyString, r1) else ("." ++ ds, r')
        | _ => (EmptyString, r1)
        end in
      let (ex, r3) :=
        match r2 with
        | String e r =>
            if Ascii.eqb e "e" || Ascii.eqb e "E" then
              let (sg, r') := match r with
                              | String "-"%char x => ("-", x)
                              | String "+"%char x => ("+", x)
                              | _ => (EmptyString, r)
                              end in
              let (ds, r'') := span is_digit r' in
              if String.eqb ds EmptyString then (EmptyString, r2)
              else (String e (sg ++ ds), r'')
            else (EmptyString, r2)
        | EmptyString => (EmptyString, r2)
        end in
      if String.eqb frac EmptyString && String.eqb ex EmptyString then
        let z := digits_value ip in
        Some (PInt (if String.eqb sign "-" then Z.opp z else z), r3)
      else Some (PFloat (json_float (sign ++ ip ++ frac ++ ex)), r3)
  end.

(** [JSONObject] / [JSONArray] / [scan_once]; [s] starts at the value. *)
Fixpoint scan_value (fuel : nat) (s : string) : option (pyval * string) :=
  match fuel with
  | O => None
  | S fuel' =>
      let fix obj_rest (fuel2 : nat) (acc : list (pyval * pyval)) (s : string)
          : option (pyval * string) :=
        (* [s] is just after the opening quote of a key *)
        match fuel2 with
        | O => None
        | S fuel2' =>
            match scan_string fuel' s with
            | None => None
            | Some (k, r) =>
                match skip_ws r with
                | String ":"%char r1 =>
                    match scan_value fuel' (skip_ws r1) with
                    | None => None
                    | Some (v, r2) =>
                        let acc' := dict_set (PStr k) v acc in
                        match skip_ws r2 with
                        | String "}"%char r3 => Some (PDict acc', r3)
                        | String ","%char r3 =>
                            match skip_ws r3 with
                            | String c r4 =>
                                if Nat.eqb (code c) 34 then obj_rest fuel2' acc' r4 else None
                            | EmptyString => None
                            end
                        | _ => None
                        end
                    end
                | _ => None
                end
            end
        end in
      let fix arr_rest (fuel2 : nat) (acc : list pyval) (s : string)
          : option (pyval * string) :=
        match fuel2 with
        | O => None
        | S fuel2' =>
            match scan_value fuel' s with
            | None => None
            | Some (v, r) =>
                match skip_ws r with
                | String "]"%char r1 => Some (PList (acc ++ [v])%list, r1)
                | String ","%char r1 => arr_rest fuel2' (acc ++ [v])%list (skip_ws r1)
                | _ => None
                end
            end
        end in
      match s with
      | EmptyString => None
      | String c r =>
          let n := code c in
          if Nat.eqb n 34 then
            match scan_string fuel' r with
            | Some (x, r') => Some (PStr x, r')
            | None => None
            end
          else if Nat.eqb n 123 then
            match skip_ws r with
            | String "}"%char r1 => Some (PDict [], r1)
            | String q r1 => if Nat.eqb (code q) 34 then obj_rest fuel' [] r1 else None
            | EmptyString => None
            end
          else if Nat.eqb n 91 then
            match skip_ws r with
            | String "]"%char r1 => Some (PList [], r1)
            | r1 => arr_rest fuel' [] r1
            end
          else if prefix "null" s then Some (PNone, sdrop 4 s)
          else if prefix "true" s then Some (PBool true, sdrop 4 s)
          else if prefix "false" s then Some (PBool false, sdrop 5 s)
          else match scan_number s with
               | Some p => Some p
               | None =>
                   if prefix "NaN" s then Some (PFloat (json_float "NaN"), sdrop 3 s)
                   else if prefix "Infinity" s then Some (PFloat (json_float "Infinity"), sdrop 8 s)
                   else if prefix "-Infinity" s then
                     Some (PFloat (json_float "-Infinity"), sdrop 9 s)
                   else None
               end
      end
  end.

(** [json.loads(s)]: [None] when it raises [JSONDecodeError]. *)
Definition json_loads (s : string) : option pyval :=
  match scan_value (S (String.length s)) (skip_ws s) with
  | Some (v, r) => if String.eqb (skip_ws r) EmptyString then Some v else None
  | None => None
  end.

(** ** utils.fix_json_quotes *)

Fixpoint replace_char (a b : ascii) (s : string) : string :=
  match s with
  | EmptyString => EmptyString
  | String c s' => String (if Ascii.eqb c a then b else c) (replace_char a b s')
  end.

Definition fix_json_quotes (json_str : string) : string :=
  match json_loads json_str with
  | Some _ => json_str
  | None => replace_char "'" dqc json_str
  end.

(** ** utils.parse_action *)

(** [ast.literal_eval(s)]: [None] when it raises. *)
Variable literal_eval : string -> option pyval.

Definition brace_group (s : string) : option string :=
  match s with
  | String "{"%char r =>
      let (body, r') := span (fun c => negb (Ascii.eqb c "}")) r in
      match r' with
      | String "}"%char _ => Some ("{" ++ body ++ "}")
      | _ => None
      end
  | _ => None
  end.

(** One match of [ACTION:\s*(\w+)\s*(\{[^}]* \})?] (IGNORECASE) at the start of [s]. *)
Definition match_action (s : string) : option (string * option string) :=
  if prefix_ci "ACTION:" s then
    let (_, r1) := span is_space (sdrop 7 s) in
    let (name, r2) := span is_word r1 in
    if String.eqb name EmptyString then None
    else let (_, r3) := span is_space r2 in Some (name, brace_group r3)
  else None.

Fixpoint search_action (s : string) : option (string * option string) :=
  match match_action s with
  | Some m => Some m
  | None => match s with EmptyString => None | String _ s' => search_action s' end
  end.

Definition no_action_msg : string :=
  "No valid ACTION found in response. Expected format: ACTION: tool_name{json_args}".

Definition as_args (v : pyval) : res (list (pyval * pyval)) :=
  match v with
  | PDict kv => Ok kv
  | _ => raise "ValueError" "ACTION arguments must be a JSON object (dict)"
  end.

Definition parse_action (text : string) : res (string * list (pyval * pyval)) :=
  match search_action text with
  | None => raise "ValueError" no_action_msg
  | Some (tool_name, None) => Ok (tool_name, [])
  | Some (tool_name, Some args_str) =>
      let args_str_clean := strip args_str in
      let* args :=
        match json_loads args_str_clean with
        | Some v => as_args v
        | None =>
            match json_loads (fix_json_quotes args_str_clean) with
            | Some v => as_args v
            | None =>
                match literal_eval args_str_clean with
                | Some v => as_args v
                | None => raise "ValueError" ("Could not parse JSON arguments: " ++ args_str_clean)
                end
            end
        end in
      Ok (tool_name, args)
  end.

(** ** utils.extract_section *)

Definition section_end (s : string) : bool :=
  prefix_ci "THOUGHT:" s || prefix_ci "ACTION:" s || prefix_ci "OBSERVATION:" s
  || prefix_ci "FINAL ANSWER:" s || String.eqb s EmptyString || String.eqb s (String "010"%char EmptyString).

(** The lazy [(.+?)] after its first char, up to the lookahead. *)
Fixpoint lazy_until (s : string) : string :=
  if section_end s then EmptyString
  else match s with
       | EmptyString => EmptyString
       | String c s' => String c (lazy_until s')
       end.

(** One match of [{section}:\s*(.+?)(?=THOUGHT:|ACTION:|OBSERVATION:|FINAL ANSWER:|$)]
    (DOTALL, IGNORECASE) at the start of [s]; the stripped group. *)
Definition match_section (section s : string) : option string :=
  if prefix_ci (section ++ ":") s then
    let r := sdrop (S (String.length section)) s in
    let (_, r1) := span is_space r in
    match r1 with
    | String x rest => Some (strip (String x (lazy_until rest)))
    | EmptyString => match r with EmptyString => None | _ => Some EmptyString end
    end
  else None.

Fixpoint extract_section (text section : string) : string :=
  match match_section section text with
  | Some content => content
  | None => match text with EmptyString => EmptyString | String _ t => extract_section t section end
  end.

(** ** The database connection (sqlite3, read-only) *)

(** Names returned by the catalog query of [_list_tables]
    ([sqlite_master], no [sqlite_%] tables, ORDER BY name). *)
Variable db_table_names : list string.

(** [cursor.execute(sql)] followed by [fetchall()]. *)
Variable db_execute : string -> db_result.

(** ** tools.ToolRegistry *)

Definition nth_res (row : list pyval) (i : nat) : res pyval :=
  match nth_error row i with
  | Some v => Ok v
  | None => raise "IndexError" "tuple index out of range"
  end.

Fixpoint map_res {A B : Type} (f : A -> res B) (l : list A) : res (list B) :=
  match l with
  | [] => Ok []
  | x :: xs => let* y := f x in let* ys := map_res f xs in Ok (y :: ys)
  end.

Definition _list_tables : pyval := PList (map PStr db_table_names).

Definition _describe_table (table_name : pyval) : res pyval :=
  let t := py_str table_name in
  match db_execute ("PRAGMA table_info(" ++ t ++ ")") with
  | DbError k m => raise k m
  | DbRows _ columns =>
      match db_execute ("SELECT COUNT(*) FROM " ++ t) with
      | DbError k m => raise k m
      | DbRows _ rows =>
          let* row_count :=
            match rows with
            | [] => raise "TypeError" "'NoneType' object is not subscriptable"
            | r :: _ => nth_res r 0
            end in
          let* cols := map_res (fun col =>
                          let* n := nth_res col 1 in let* ty := nth_res col 2 in
                          Ok (PDict [(PStr "name", n); (PStr "type", ty)])) columns in
          Ok (PDict [(PStr "table_name", table_name); (PStr "columns", PList cols);
                     (PStr "row_count", row_count)])
      end
  end.

Definition _query_database (query : pyval) : res pyval :=
  match query with
  | PStr q =>
      let tables := db_table_names in
      let (is_ok, fixed) := validate_sql q tables in
      if negb is_ok then Ok (PDict [(PStr "error", PStr fixed)])
      else match db_execute fixed with
           | DbError k m => Ok (PDict [(PStr "error", PStr (k ++ ": " ++ m))])
           | DbRows desc rows =>
               Ok (PDict [(PStr "columns", PList (map PStr desc));
                          (PStr "rows", PList (map PTuple rows));
                          (PStr "row_count", PInt (Z.of_nat (List.length rows)))])
           end
  | v => raise "AttributeError" ("'" ++ py_type_name v ++ "' object has no attribute 'strip'")
  end.

Definition tool_names : list string := ["list_tables"; "describe_table"; "query_database"].

Definition tool_params (name : string) : list string :=
  if String.eqb name "describe_table" then ["table_name"]
  else if String.eqb name "query_database" then ["query"] else [].

Definition lambda_qualname : string := "ToolRegistry._register_tools.<locals>.<lambda>".

(** Binding keyword arguments to the parameters of a tool's lambda. *)
Definition bind_kwargs (params : list string) (args : list (pyval * pyval)) : res (list pyval) :=
  if negb (forallb (fun kv => match fst kv with PStr _ => true | _ => false end) args)
  then raise "TypeError" "keywords must be strings"
  else match find (fun kv => match fst kv with
                             | PStr k => negb (existsb (String.eqb k) params)
                             | _ => false end) args with
       | Some (k, _) =>
           raise "TypeError" (lambda_qualname ++ "() got an unexpected keyword argument '"
                              ++ py_str k ++ "'")
       | None =>
           map_res (fun p => match dict_get (PStr p) args with
                             | Some v => Ok v
                             | None => raise "TypeError" (lambda_qualname
                                 ++ "() missing 1 required positional argument: '" ++ p ++ "'")
                             end) params
       end.

(** [Tool.call] with keyword arguments, for a registered tool. *)
Definition tool_call (name : string) (args : list (pyval * pyval)) : res pyval :=
  let* vs := bind_kwargs (tool_params name) args in
  if String.eqb name "describe_table" then
    match vs with v :: _ => _describe_table v | [] => raise "TypeError" "" end
  else if String.eqb name "query_database" then
    match vs with v :: _ => _query_database v | [] => raise "TypeError" "" end
  else Ok _list_tables.

(** [ToolRegistry.get_tool]: raises for a name not in the registry. *)
Definition get_tool (name : string) : res string :=
  if existsb (String.eqb name) tool_names then Ok name
  else raise "ValueError" ("Tool '" ++ name ++ "' not found").

(** ** agent.EvidenceCache and SQLAgent._ingest_observation *)

Record evidence_cache : Type := mk_cache {
  tables : pyval;
  schema : list (pyval * pyval);
  row_counts : list (pyval * pyval)
}.

Definition empty_cache : evidence_cache := mk_cache (PList []) [] [].

(** [[c["name"] for c in cols]]: [None] when it raises. *)
Definition column_names (cols : list pyval) : option (list pyval) :=
  let fix go l := match l with
                  | [] => Some []
                  | PDict kv :: r =>
                      match dict_get (PStr "name") kv, go r with
                      | Some n, Some ns => Some (n :: ns)
                      | _, _ => None
                      end
                  | _ :: _ => None
                  end in go cols.

Definition is_int (v : pyval) : bool :=
  match v with PInt _ | PBool _ => true | _ => false end.

(** Every exception inside the [try] is swallowed, keeping the updates made
    before it. *)
Definition _ingest_observation (tool_name : string) (out : pyval)
    (args : list (pyval * pyval)) (c : evidence_cache) : evidence_cache :=
  if String.eqb tool_name "list_tables" then
    match out with
    | PList l | PTuple l => mk_cache (PList l) (schema c) (row_counts c)
    | PDict kv => match dict_get (PStr "tables") kv with
                  | Some t => mk_cache t (schema c) (row_counts c)
                  | None => c
                  end
    | _ => c
    end
  else if String.eqb tool_name "describe_table" then
    let a := match dict_get (PStr "table_name") args with Some v => v | None => PNone end in
    let tbl := if truthy a then a
               else match dict_get (PStr "table") args with Some v => v | None => PNone end in
    match out with
    | PDict kv =>
        let c1 :=
          match dict_get (PStr "columns") kv with
          | Some (PList cols) =>
              let v := match cols with
                       | PDict kv0 :: _ => if has_key "name" kv0 then
                                             option_map PList (column_names cols)
                                           else Some (PList cols)
                       | _ => Some (PList cols)
                       end in
              match v with
              | Some v => if hashable tbl then Some (mk_cache (tables c) (dict_set tbl v (schema c))
                                                               (row_counts c))
                          else None
              | None => None
              end
          | _ => Some c
          end in
        match c1 with
        | None => c
        | Some c1 =>
            match dict_get (PStr "row_count") kv with
            | Some rc => if is_int rc then
                           if hashable tbl then mk_cache (tables c1) (schema c1)
                                                  (dict_set tbl rc (row_counts c1))
                           else c1
                         else c1
            | None => c1
            end
        end
    | _ => c
    end
  else c.

(** ** SQLAgent._call_tool *)

Definition _norm_table_arg (args : list (pyval * pyval)) : list (pyval * pyval) :=
  match dict_get (PStr "table") args with
  | Some v => dict_set (PStr "table_name") v args
  | None => args
  end.

Definition render_output (out : pyval) : res string :=
  match out with
  | PList l | PTuple l => Ok (stake 2000 (py_repr (PList l)))
  | PDict _ =>
      let* body := json_dumps out in
      if Nat.ltb 2000 (String.length body) then Ok (stake 2000 body ++ " ...[truncated]")
      else Ok body
  | _ => Ok (stake 2000 (py_str out))
  end.

Definition error_text (e : exn) : string := "ERROR: " ++ exn_kind e ++ ": " ++ exn_msg e.

(** The observation, the argument dict after alias normalisation (it is
    the same, mutated, object the caller prints), and the cache. *)
Definition _call_tool (c : evidence_cache) (name : string) (args : list (pyval * pyval))
    : res (string * list (pyval * pyval) * evidence_cache) :=
  let args := if String.eqb name "describe_table" then _norm_table_arg args else args in
  let* _ := get_tool name in
  match tool_call name args with
  | Err e => Ok (error_text e, args, c)
  | Ok out =>
      let c' := _ingest_observation name out args c in
      match render_output out with
      | Ok s => Ok (s, args, c')
      | Err e => Ok (error_text e, args, c')
      end
  end.

(** ** SQLAgent.run *)

Record agent : Type := mk_agent {
  history_blocks : list string;
  logs : list string;
  cache : evidence_cache
}.

(** [SQLAgent.__init__]: the per-agent state. *)
Definition new_agent : agent := mk_agent [] [] empty_cache.

Definition no_evidence_obs : string :=
  "You are answering without running any tool yet. " ++
  "Please gather evidence using one ACTION before concluding.".

Definition no_evidence_block (thought : string) : string :=
  "THOUGHT: " ++ or_default thought "(none)" ++ nl ++ "ACTION: N/A" ++ nl ++
  "OBSERVATION: " ++ no_evidence_obs.

Definition parse_error_block (thought : string) (e : exn) : string :=
  "THOUGHT: " ++ or_default thought "(parsing failed)" ++ nl ++ "ACTION: N/A" ++ nl ++
  "OBSERVATION: " ++ ("ParserError: " ++ exn_msg e ++ ". Ensure valid JSON with double quotes.").

Definition dispatch_block (thought tool_name : string) (args : list (pyval * pyval))
    (observation : string) : string :=
  "THOUGHT: " ++ or_default thought "(none)" ++ nl ++
  "ACTION: " ++ tool_name ++ py_repr (PDict args) ++ nl ++
  "OBSERVATION: " ++ observation.

Definition append_block (st : agent) (b : string) : agent :=
  mk_agent (history_blocks st ++ [b])%list (logs st) (cache st).

(** The branch a non-returning step took (instrumentation). *)
Inductive event : Type :=
| EvNoEvidence (thought : string)
| EvParseError (thought : string) (e : exn)
| EvDispatch (thought tool_name : string) (args : list (pyval * pyval)) (observation : string).

(** The trace block each branch appends. *)
Definition block_of_event (ev : event) : string :=
  match ev with
  | EvNoEvidence t => no_evidence_block t
  | EvParseError t e => parse_error_block t e
  | EvDispatch t n a o => dispatch_block t n a o
  end.

Inductive step_result : Type :=
| StepReturn (answer : string) (st : agent)
| StepNext (ev : event) (st : agent)
| StepRaise (e : exn) (st : agent).

(** One iteration of the [for step in range(self.step_limit)] loop, on the
    model output [llm_out]. *)
Definition run_step (step : nat) (llm_out : string) (st : agent) : step_result :=
  let thought := extract_section llm_out "THOUGHT" in
  let st := mk_agent (history_blocks st)
              (app (logs st) ["[STEP " ++ string_of_nat step ++ "] THOUGHT: " ++
                               or_default thought "(none)"])
              (cache st) in
  let final := extract_section llm_out "FINAL ANSWER" in
  if negb (String.eqb final EmptyString) then
    match history_blocks st with
    | [] => StepNext (EvNoEvidence thought) (append_block st (no_evidence_block thought))
    | _ :: _ => StepReturn final st
    end
  else
    match parse_action llm_out with
    | Err e => StepNext (EvParseError thought e) (append_block st (parse_error_block thought e))
    | Ok (tool_name, args) =>
        match _call_tool (cache st) tool_name args with
        | Err e => StepRaise e st
        | Ok (observation, args', c') =>
            StepNext (EvDispatch thought tool_name args' observation)
              (append_block (mk_agent (history_blocks st) (logs st) c')
                 (dispatch_block thought tool_name args' observation))
        end
    end.

Definition lastn {A : Type} (n : nat) (l : list A) : list A :=
  skipn (List.length l - n) l.

Definition max_step_message (st : agent) : string :=
  "Max step limit reached. Here's what I tried:" ++ nl ++
  join (nl ++ nl) (lastn 3 (history_blocks st)) ++
  nl ++ nl ++ "Consider refining the question or being more specific.".

(** How a call of [run] ends; [evs] lists the branches of its non-returning
    steps (instrumentation). *)
Inductive run_result : Type :=
| Returned (answer : string) (st : agent) (evs : list event)
| Raised (e : exn) (st : agent) (evs : list event).

(** The model backend is represented by the sequence of its replies:
    [outs k] is the reply to the prompt of the [k]-th call. *)
Fixpoint run_loop (fuel step : nat) (outs : nat -> string) (st : agent) : run_result :=
  match fuel with
  | O => Returned (max_step_message st) st []
  | S fuel' =>
      match run_step step (outs step) st with
      | StepReturn a st' => Returned a st' []
      | StepRaise e st' => Raised e st' []
      | StepNext ev st' =>
          match run_loop fuel' (S step) outs st' with
          | Returned a st'' evs => Returned a st'' (ev :: evs)
          | Raised e st'' evs => Raised e st'' (ev :: evs)
          end
      end
  end.

Definition run (step_limit : Z) (outs : nat -> string) (st : agent) : run_result :=
  run_loop (Z.to_nat step_limit) 0 outs st.

Definition result_state (r : run_result) : agent :=
  match r with Returned _ st _ => st | Raised _ st _ => st end.

Definition result_events (r : run_result) : list event :=
  match r with Returned _ _ evs => evs | Raised _ _ evs => evs end.


(** What a branch presupposes about the model output [llm_out] and the
    state [st] the step started from. *)
Definition event_justified (llm_out : string) (st : agent) (ev : event) : Prop :=
  match ev with
  | EvNoEvidence t =>
      t = extract_section llm_out "THOUGHT"
      /\ extract_section llm_out "FINAL ANSWER" <> EmptyString /\ history_blocks st = []
  | EvParseError t e =>
      t = extract_section llm_out "THOUGHT"
      /\ extract_section llm_out "FINAL ANSWER" = EmptyString /\ parse_action llm_out = Err e
  | EvDispatch t name args' obs =>
      t = extract_section llm_out "THOUGHT"
      /\ extract_section llm_out "FINAL ANSWER" = EmptyString
      /\ exists args c', parse_action llm_out = Ok (name, args)
                         /\ _call_tool (cache st) name args = Ok (obs, args', c')
  end.

Fixpoint contains_ci (sub s : string) : bool :=
  prefix_ci sub s || match s with EmptyString => false | String _ s' => contains_ci sub s' end.

(** The observation the spec expects for a DELETE request. *)
Definition delete_observation : string :=
  "{" ++ dq ++ "error" ++ dq ++ ": " ++ dq ++ "Only SELECT queries are allowed (read-only mode)"
  ++ dq ++ "}".


(** The P5 input: [ACTION: describe_table{'table_name': 'sample'}]. *)
(** Sample functions for [retry_with_backoff]: one fails on its first two
    calls, the other on every call. *)
Definition fails_twice (i : nat) : res Z :=
  if Nat.ltb i 2 then raise "RuntimeError" "boom" else Ok 7%Z.

Definition always_fails (_ : nat) : res Z := raise "RuntimeError" "boom".

Definition describe_sq_args : string := "{'table_name': 'sample'}".

Definition describe_sq_action : string := "ACTION: describe_table" ++ describe_sq_args.

(** ** Properties used by the claims *)

(** A whole-word occurrence of [kw] in [u]: flanked by non-word chars or
    by the ends of the text. *)
Definition whole_word (kw u : string) : Prop :=
  exists p r, u = p ++ kw ++ r /\ word_opt (last_opt p) = false /\ word_opt (head_opt r) = false.

Fixpoint all_word (s : string) : bool :=
  match s with
  | EmptyString => true
  | String c s' => is_word c && all_word s'
  end.

Definition last_or (prev : option ascii) (p : string) : option ascii :=
  match last_opt p with Some c => Some c | None => prev end.

Lemma last_opt_none (p : string) : last_opt p = None -> p = EmptyString.
Proof.
  induction p as [|c p IH]; simpl; [reflexivity|].
  destruct p; [discriminate|]. intro H. specialize (IH H). discriminate.
Qed.

Lemma last_or_cons (prev : option ascii) (c : ascii) (p : string) :
  last_or prev (String c p) = last_or (Some c) p.
Proof.
  unfold last_or. simpl. destruct p as [|c' p']; [reflexivity|].
  destruct (last_opt (String c' p')) eqn:E; [reflexivity|].
  apply last_opt_none in E. discriminate.
Qed.

Lemma prefix_app (kw r : string) : prefix kw (kw ++ r) = true.
Proof.
  induction kw as [|c kw IH]; simpl; [destruct r; reflexivity|].
  destruct (ascii_dec c c); [exact IH|congruence].
Qed.

Lemma prefix_split (kw s : string) :
  prefix kw s = true -> s = kw ++ sdrop (String.length kw) s.
Proof.
  revert s; induction kw as [|c kw IH]; intros s H; [reflexivity|].
  destruct s as [|c' s']; simpl in H; [discriminate|].
  destruct (ascii_dec c c'); [subst|discriminate].
  simpl. f_equal. apply IH. exact H.
Qed.

Lemma sdrop_app (kw r : string) : sdrop (String.length kw) (kw ++ r) = r.
Proof. induction kw; simpl; auto. Qed.

Lemma last_opt_app_word (kw : string) :
  kw <> EmptyString -> all_word kw = true -> word_opt (last_opt kw) = true.
Proof.
  induction kw as [|c kw IH]; intros Hne Hw; [congruence|].
  simpl in Hw. apply andb_prop in Hw as [Hc Hw].
  simpl. destruct kw as [|c' kw']; [exact Hc|].
  apply IH; [discriminate|exact Hw].
Qed.

Lemma head_opt_app_word (kw r : string) :
  kw <> EmptyString -> all_word kw = true -> word_opt (head_opt (kw ++ r)) = true.
Proof.
  destruct kw as [|c kw]; intros Hne Hw; [congruence|].
  simpl in *. apply andb_prop in Hw as [Hc _]. exact Hc.
Qed.

Lemma search_bounded_from_cons (prev : option ascii) (kw : string) (c : ascii) (s : string) :
  search_bounded_from prev kw (String c s) =
  (xorb (word_opt prev) (word_opt (head_opt (String c s))) && prefix kw (String c s)
    && xorb (word_opt (last_opt kw)) (word_opt (head_opt (sdrop (String.length kw) (String c s)))))
  || search_bounded_from (Some c) kw s.
Proof. reflexivity. Qed.

Lemma search_bounded_from_spec (kw : string) :
  kw <> EmptyString -> all_word kw = true ->
  forall s prev,
    search_bounded_from prev kw s = true <->
    exists p r, s = p ++ kw ++ r /\ word_opt (last_or prev p) = false
                /\ word_opt (head_opt r) = false.
Proof.
  intros Hne Hw s. induction s as [|c s IH]; intro prev.
  - split.
    + intro H. simpl in H. rewrite orb_false_r in H.
      destruct kw; [congruence|]. simpl in H.
      rewrite andb_false_r, andb_false_l in H. discriminate.
    + intros (p & r & E & _ & _). destruct p; destruct kw; simpl in E; congruence.
  - split.
    + intro H. rewrite search_bounded_from_cons in H. apply orb_prop in H as [H | H].
      * apply andb_prop in H as [H H3]. apply andb_prop in H as [H1 H2].
        pose proof (prefix_split kw _ H2) as Es.
        exists EmptyString, (sdrop (String.length kw) (String c s)).
        split; [exact Es|]. split.
        -- unfold last_or; simpl.
           rewrite Es in H1. rewrite (head_opt_app_word kw _ Hne Hw) in H1.
           destruct (word_opt prev); simpl in *; congruence.
        -- rewrite (last_opt_app_word kw Hne Hw) in H3.
           destruct (word_opt (head_opt (sdrop (String.length kw) (String c s))));
             simpl in *; congruence.
      * apply IH in H as (p & r & E & Hl & Hr).
        exists (String c p), r. split; [simpl; rewrite E; reflexivity|].
        rewrite last_or_cons. split; assumption.
    + intros (p & r & E & Hl & Hr). rewrite search_bounded_from_cons.
      destruct p as [|c0 p].
      * apply orb_true_intro. left.
        simpl in E.
        unfold last_or in Hl; simpl in Hl.
        rewrite E, (head_opt_app_word kw r Hne Hw), prefix_app, sdrop_app,
          (last_opt_app_word kw Hne Hw), Hl, Hr.
        reflexivity.
      * simpl in E. injection E as -> E.
        apply orb_true_intro. right. apply IH.
        exists p, r. rewrite last_or_cons in Hl. auto.
Qed.

Lemma search_bounded_spec (kw u : string) :
  kw <> EmptyString -> all_word kw = true ->
  (search_bounded kw u = true <-> whole_word kw u).
Proof.
  intros Hne Hw. unfold search_bounded, whole_word.
  rewrite (search_bounded_from_spec kw Hne Hw u None).
  split; intros (p & r & E & Hl & Hr); exists p, r; repeat split; auto;
    unfold last_or in *; destruct (last_opt p); auto.
Qed.

Lemma forbidden_words : Forall (fun kw => kw <> EmptyString /\ all_word kw = true) forbidden.
Proof. repeat constructor; discriminate. Qed.

Lemma first_forbidden_some (kws : list string) (u kw : string) :
  In kw kws -> search_bounded kw u = true -> exists k, first_forbidden kws u = Some k.
Proof.
  induction kws as [|k ks IH]; simpl; [contradiction|].
  intros [<- | Hin] Hs.
  - rewrite Hs. eauto.
  - destruct (search_bounded k u); eauto.
Qed.

Lemma first_forbidden_none (kws : list string) (u : string) :
  (forall kw, In kw kws -> search_bounded kw u = false) -> first_forbidden kws u = None.
Proof.
  induction kws as [|k ks IH]; simpl; intro H; [reflexivity|].
  rewrite (H k (or_introl eq_refl)). apply IH. auto.
Qed.

Lemma existsb_eqb_in (x : string) (l : list string) :
  existsb (String.eqb x) l = true <-> In x l.
Proof.
  rewrite existsb_exists. split.
  - intros (y & Hy & E). apply String.eqb_eq in E. subst. exact Hy.
  - intro H. exists x. split; [exact H|apply String.eqb_refl].
Qed.

Lemma first_unknown_none (ts au : list string) :
  first_unknown ts au = None -> forall t, In t ts -> In (table_clean t) au.
Proof.
  induction ts as [|t ts IH]; simpl; intros H t0 Hin; [contradiction|].
  destruct (existsb (String.eqb (table_clean t)) au) eqn:E; [|discriminate].
  destruct Hin as [<- | Hin].
  - apply existsb_eqb_in. exact E.
  - apply IH; assumption.
Qed.

Lemma first_unknown_some (ts au : list string) (t : string) :
  first_unknown ts au = Some t -> In t ts /\ ~ In (table_clean t) au.
Proof.
  induction ts as [|t' ts IH]; simpl; intro H; [discriminate|].
  destruct (existsb (String.eqb (table_clean t')) au) eqn:E.
  - apply IH in H as [H1 H2]. auto.
  - injection H as <-. split; [auto|].
    intro Hin. apply existsb_eqb_in in Hin. congruence.
Qed.

Lemma first_unknown_complete (ts au : list string) (t0 : string) :
  In t0 ts -> ~ In (table_clean t0) au -> exists t, first_unknown ts au = Some t.
Proof.
  destruct (first_unknown ts au) eqn:E; [eauto|].
  intros Hin Hn. exfalso. apply Hn. exact (first_unknown_none ts au E t0 Hin).
Qed.

(** C2: [validate_sql] rejects every query text whose uppercased (stripped)
    form holds one of INSERT, UPDATE, DELETE, DROP, ALTER, CREATE, TRUNCATE,
    REPLACE, PRAGMA as a whole word, whatever punctuation surrounds it; and
    when every occurrence of those keywords lies inside a longer identifier,
    the forbidden-keyword check finds nothing and rejects nothing. *)
Theorem validate_sql_forbidden_keywords :
  (forall (query : string) (allowed_tables : list string) (kw : string),
     In kw forbidden -> whole_word kw (query_upper query) ->
     fst (validate_sql query allowed_tables) = false)
  /\
  (forall query : string,
     (forall kw, In kw forbidden -> ~ whole_word kw (query_upper query)) ->
     first_forbidden forbidden (query_upper query) = None).
Proof.
  split.
  - intros query allowed_tables kw Hin Hww.
    pose proof (proj1 (Forall_forall _ _) forbidden_words kw Hin) as [Hne Hw].
    apply (search_bounded_spec kw _ Hne Hw) in Hww.
    destruct (first_forbidden_some forbidden _ kw Hin Hww) as [k Hk].
    unfold validate_sql. unfold query_upper in Hk. cbv zeta.
    destruct (prefix "SELECT" (upper (strip query))); cbn [negb]; [rewrite Hk|]; reflexivity.
  - intros query H. apply first_forbidden_none. intros kw Hin.
    pose proof (proj1 (Forall_forall _ _) forbidden_words kw Hin) as [Hne Hw].
    destruct (search_bounded kw (query_upper query)) eqn:E; [|reflexivity].
    exfalso. apply (H kw Hin). apply (search_bounded_spec kw _ Hne Hw). exact E.
Qed.

Lemma span_split (p : ascii -> bool) (s a r : string) :
  span p s = (a, r) ->
  s = a ++ r /\ (forall c, In c (list_ascii_of_string a) -> p c = true)
  /\ match r with String c _ => p c = false | EmptyString => True end.
Proof.
  revert a r. induction s as [|c s IH]; intros a r H; simpl in H.
  - injection H as <- <-. simpl. auto.
  - destruct (p c) eqn:Ec.
    + destruct (span p s) as [a' r'] eqn:Es. injection H as <- <-.
      destruct (IH a' r' eq_refl) as (-> & Ha & Hr). simpl.
      split; [reflexivity|]. split; [|exact Hr].
      intros x [<-|Hx]; [exact Ec|apply Ha, Hx].
    + injection H as <- <-. simpl. rewrite Ec. auto.
Qed.

Lemma first_unknown_app (pre post au : list string) (t : string) :
  Forall (fun x => In (table_clean x) au) pre -> ~ In (table_clean t) au ->
  first_unknown (pre ++ t :: post) au = Some t.
Proof.
  induction 1 as [|x pre Hx Hpre IH]; intro Ht; cbn [app first_unknown].
  - destruct (existsb (String.eqb (table_clean t)) au) eqn:E; [|reflexivity].
    exfalso. apply Ht. apply existsb_eqb_in. exact E.
  - apply existsb_eqb_in in Hx. rewrite Hx. exact (IH Ht).
Qed.

Lemma ident_start_word (c : ascii) : ident_start c = true -> is_word c = true.
Proof.
  unfold ident_start, is_word. intro H. apply orb_true_iff in H as [H|H]; rewrite H;
    [reflexivity|rewrite !orb_true_r; reflexivity].
Qed.

Lemma match_kw_ident_word (kw s id rest : string) :
  match_kw_ident kw s = Some (id, rest) ->
  id <> EmptyString /\ forall c, In c (list_ascii_of_string id) -> is_word c = true.
Proof.
  unfold match_kw_ident. destruct (prefix_ci kw s); [|discriminate].
  destruct (span is_space (sdrop (String.length kw) s)) as [ws r1].
  destruct (String.eqb ws EmptyString); [discriminate|].
  destruct r1 as [|c r1]; [discriminate|].
  destruct (ident_start c) eqn:Hc; [|discriminate]. intro H.
  assert (Es : span ident_char (String c r1) = (id, rest)) by (injection H; intro E; exact E).
  pose proof (ident_start_word c Hc) as Hw.
  destruct (span_split _ _ _ _ Es) as (_ & Ha & _). split; [|exact Ha].
  cbn [span] in Es. unfold ident_char in Es. rewrite Hw in Es.
  destruct (span is_word r1). injection Es as <- _. discriminate.
Qed.

Lemma findall_fuel_word (fuel : nat) (kw s t : string) :
  In t (findall_fuel fuel kw s) ->
  t <> EmptyString /\ forall c, In c (list_ascii_of_string t) -> is_word c = true.
Proof.
  revert s. induction fuel as [|fuel IH]; intro s; cbn [findall_fuel]; [contradiction|].
  destruct s as [|c s']; [contradiction|].
  destruct (match_kw_ident kw (String c s')) as [[id rest]|] eqn:E.
  - intros [<-|H]; [exact (match_kw_ident_word _ _ _ _ E)|exact (IH _ H)].
  - apply IH.
Qed.

Lemma strip_by_none (p : ascii -> bool) (s : string) :
  (forall c, In c (list_ascii_of_string s) -> p c = false) ->
  lstrip_by p s = s /\ rstrip_by p s = s.
Proof.
  induction s as [|c s IH]; intro H; [split; reflexivity|].
  assert (Hc : p c = false) by (apply H; left; reflexivity).
  destruct IH as [_ IH]; [intros x Hx; apply H; right; exact Hx|].
  cbn. rewrite Hc, IH, andb_false_r. split; reflexivity.
Qed.

Lemma strip_char_word (ch : ascii) (t : string) :
  is_word ch = false -> (forall c, In c (list_ascii_of_string t) -> is_word c = true) ->
  strip_char ch t = t.
Proof.
  intros Hch Ht.
  assert (H : forall c, In c (list_ascii_of_string t) -> Ascii.eqb ch c = false).
  { intros c Hc. destruct (Ascii.eqb_spec ch c) as [<-|]; [|reflexivity].
    rewrite (Ht ch Hc) in Hch. discriminate. }
  unfold strip_char. destruct (strip_by_none _ t H) as [-> ->]. reflexivity.
Qed.

(** C3 (as the code has it): [validate_sql] checks exactly the names its
    scan captures after FROM or JOIN (the keyword, whitespace, an identifier
    [[A-Za-z_][A-Za-z0-9_]*]).  An accepted query has every captured name in
    the allowed set, compared case-insensitively; once the SELECT and
    keyword checks pass, the first captured name that is not allowed is the
    one the rejection names.  A captured name is a non-empty run of word
    characters, so stripping quotes from it changes nothing, and a quoted
    name is never captured: [SELECT * FROM "ghost"] is accepted with only
    [sample] allowed, as is a second name listed after a comma. *)
Theorem validate_sql_captured_tables_allowed :
  (forall (query : string) (allowed_tables : list string) (s : string),
     validate_sql query allowed_tables = (true, s) ->
     forall t, In t (tables_in_query (query_upper query)) ->
     In (table_clean t) (map upper allowed_tables))
  /\
  (forall (query : string) (allowed_tables pre post : list string) (t : string),
     prefix "SELECT" (query_upper query) = true ->
     first_forbidden forbidden (query_upper query) = None ->
     tables_in_query (query_upper query) = (pre ++ t :: post)%list ->
     Forall (fun x => In (table_clean x) (map upper allowed_tables)) pre ->
     ~ In (table_clean t) (map upper allowed_tables) ->
     validate_sql query allowed_tables = (false, unknown_table_msg t allowed_tables))
  /\
  (forall u t : string, In t (tables_in_query u) ->
     t <> EmptyString /\ (forall c, In c (list_ascii_of_string t) -> is_word c = true)
     /\ table_clean t = t)
  /\ validate_sql ("SELECT * FROM " ++ dq ++ "ghost" ++ dq) ["sample"]
     = (true, "SELECT * FROM " ++ dq ++ "ghost" ++ dq ++ " LIMIT 100")
  /\ validate_sql "SELECT * FROM sample, ghost" ["sample"]
     = (true, "SELECT * FROM sample, ghost LIMIT 100").
Proof.
  unfold query_upper. split; [|split; [|split; [|split]]].
  - intros query allowed_tables s H t Hin.
    unfold validate_sql in H. cbv zeta in H.
    destruct (prefix "SELECT" (upper (strip query))); cbn [negb] in H; [|discriminate].
    destruct (first_forbidden forbidden (upper (strip query))); [discriminate|].
    destruct (first_unknown (tables_in_query (upper (strip query))) (map upper allowed_tables))
      eqn:E; [discriminate|].
    exact (first_unknown_none _ _ E t Hin).
  - intros query allowed_tables pre post t Hs Hf Ht Hpre Hn.
    unfold validate_sql. cbv zeta. rewrite Hs, Hf, Ht, (first_unknown_app _ _ _ _ Hpre Hn).
    reflexivity.
  - intros u t Hin. unfold tables_in_query, findall_kw_ident in Hin.
    apply in_app_or in Hin.
    assert (Hw : t <> EmptyString /\ forall c, In c (list_ascii_of_string t) -> is_word c = true)
      by (destruct Hin as [H|H]; exact (findall_fuel_word _ _ _ _ H)).
    destruct Hw as [Hne Hw]. split; [exact Hne|]. split; [exact Hw|].
    unfold table_clean.
    rewrite (strip_char_word dqc t eq_refl Hw), (strip_char_word "'" t eq_refl Hw).
    exact (strip_char_word "`" t eq_refl Hw).
  - vm_compute. reflexivity.
  - vm_compute. reflexivity.
Qed.

(** ** The control loop *)

Lemma run_step_spec (step : nat) (llm_out : string) (st : agent) :
  match run_step step llm_out st with
  | StepReturn a st' =>
      a = extract_section llm_out "FINAL ANSWER" /\ a <> EmptyString
      /\ history_blocks st <> [] /\ history_blocks st' = history_blocks st
  | StepRaise _ st' => history_blocks st' = history_blocks st
  | StepNext ev st' =>
      history_blocks st' = (history_blocks st ++ [block_of_event ev])%list
      /\ event_justified llm_out st ev
  end.
Proof.
  unfold run_step. cbn [history_blocks logs cache].
  destruct (String.eqb_spec (extract_section llm_out "FINAL ANSWER") EmptyString) as [Ef|Ef];
    cbn [negb].
  - destruct (parse_action llm_out) as [[tool_name args]|e] eqn:Ep.
    + destruct (_call_tool (cache st) tool_name args) as [[[obs args'] c']|e] eqn:Ec;
        cbn [history_blocks append_block].
      * split; [reflexivity|]. cbn. repeat split; auto. exists args, c'. auto.
      * reflexivity.
    + cbn [history_blocks append_block]. split; [reflexivity|]. cbn. auto.
  - cbn [history_blocks]. destruct (history_blocks st) as [|b bs] eqn:Eh.
    + cbn [history_blocks append_block]. split; [reflexivity|]. cbn. auto.
    + cbn [history_blocks]. repeat split; auto. discriminate.
Qed.

Lemma run_loop_history (fuel step : nat) (outs : nat -> string) (st : agent) :
  history_blocks (result_state (run_loop fuel step outs st)) =
  (history_blocks st ++ map block_of_event (result_events (run_loop fuel step outs st)))%list.
Proof.
  revert step st. induction fuel as [|fuel IH]; intros step st; cbn [run_loop].
  - cbn. rewrite app_nil_r. reflexivity.
  - pose proof (run_step_spec step (outs step) st) as Hs.
    destruct (run_step step (outs step) st) as [a st'|ev st'|e st'].
    + destruct Hs as (_ & _ & _ & Hs). cbn. rewrite Hs, app_nil_r. reflexivity.
    + destruct Hs as [Hs _]. specialize (IH (S step) st').
      destruct (run_loop fuel (S step) outs st') eqn:Er; cbn in *;
        rewrite IH, Hs, <- app_assoc; reflexivity.
    + cbn. rewrite Hs, app_nil_r. reflexivity.
Qed.

Lemma run_loop_returned (fuel step : nat) (outs : nat -> string) (st st' : agent)
    (a : string) (evs : list event) :
  run_loop fuel step outs st = Returned a st' evs ->
  a = max_step_message st'
  \/ (history_blocks st' <> [] /\ a <> EmptyString
      /\ exists k, a = extract_section (outs k) "FINAL ANSWER").
Proof.
  revert step st evs. induction fuel as [|fuel IH]; intros step st evs; cbn [run_loop].
  - intro H. injection H as <- <- _. left. reflexivity.
  - pose proof (run_step_spec step (outs step) st) as Hs.
    destruct (run_step step (outs step) st) as [a0 st0|ev st0|e st0].
    + intro H. injection H as <- <- _. destruct Hs as (Ha & Hne & Hh & Hh').
      right. rewrite Hh'. eauto.
    + destruct (run_loop fuel (S step) outs st0) eqn:Er; intro H; [|discriminate].
      injection H as <- <- _. eapply IH. exact Er.
    + discriminate.
Qed.

(** C1: on a step where the turn history is empty and the model output has
    a (non-empty) FINAL ANSWER section, [run] does not return it: it appends
    the corrective "gather evidence" block and goes on to the next model
    call; so whatever [run] returns is either the step-limit summary or a
    FINAL ANSWER given while at least one trace block existed. *)
Theorem run_defers_ungrounded_final_answer :
  (forall (step : nat) (llm_out : string) (st : agent),
     history_blocks st = [] -> extract_section llm_out "FINAL ANSWER" <> EmptyString ->
     exists st',
       run_step step llm_out st = StepNext (EvNoEvidence (extract_section llm_out "THOUGHT")) st'
       /\ history_blocks st' = [no_evidence_block (extract_section llm_out "THOUGHT")])
  /\
  (forall (fuel step : nat) (outs : nat -> string) (st st' : agent) (answer : string)
          (evs : list event),
     run_loop fuel step outs st = Returned answer st' evs ->
     answer = max_step_message st'
     \/ (history_blocks st' <> []
         /\ exists k, answer = extract_section (outs k) "FINAL ANSWER")).
Proof.
  split.
  - intros step llm_out st Hh Hf. unfold run_step. cbn [history_blocks logs cache].
    destruct (String.eqb_spec (extract_section llm_out "FINAL ANSWER") EmptyString);
      [contradiction|].
    cbn [negb]. rewrite Hh.
    eexists. split; [reflexivity|]. reflexivity.
  - intros fuel step outs st st' answer evs H.
    destruct (run_loop_returned fuel step outs st st' answer evs H) as [H1 | (H1 & _ & H2)];
      auto.
Qed.

Lemma get_tool_unknown (name : string) :
  ~ In name tool_names ->
  get_tool name = raise "ValueError" ("Tool '" ++ name ++ "' not found").
Proof.
  intro Hn. unfold get_tool.
  destruct (existsb (String.eqb name) tool_names) eqn:E; [|reflexivity].
  exfalso. apply Hn. apply existsb_exists in E as (x & Hx & Ex).
  apply String.eqb_eq in Ex. subst x. exact Hx.
Qed.

(** C4 (as the code has it): when the model output has no FINAL ANSWER and
    its ACTION names a tool that is not in the registry, the step raises the
    registry's [ValueError] out of [run] ([get_tool] is called outside the
    [try] of [_call_tool]); no ERROR observation and no trace block is added. *)
Theorem run_step_unknown_tool_raises (step : nat) (llm_out : string) (st : agent)
    (name : string) (args : list (pyval * pyval)) :
  extract_section llm_out "FINAL ANSWER" = EmptyString ->
  parse_action llm_out = Ok (name, args) ->
  ~ In name tool_names ->
  exists st',
    run_step step llm_out st
      = StepRaise (mk_exn "ValueError" ("Tool '" ++ name ++ "' not found")) st'
    /\ history_blocks st' = history_blocks st.
Proof.
  intros Ef Ep Hn. unfold run_step. cbn [history_blocks logs cache].
  rewrite Ef. cbn [String.eqb negb]. rewrite Ep.
  unfold _call_tool.
  assert (Hd : String.eqb name "describe_table" = false).
  { apply String.eqb_neq. intro E. apply Hn. subst. cbn. auto. }
  rewrite Hd, (get_tool_unknown name Hn). cbn.
  eexists. split; reflexivity.
Qed.

Lemma call_tool_delete (c : evidence_cache) :
  _call_tool c "query_database" [(PStr "query", PStr "DELETE FROM sample")]
  = Ok (delete_observation, [(PStr "query", PStr "DELETE FROM sample")], c).
Proof. vm_compute. reflexivity. Qed.

(** C6: whatever tables the database holds, a step whose model output
    requests [query_database] with the query [DELETE FROM sample] (and no
    FINAL ANSWER) records the observation
    [{"error": "Only SELECT queries are allowed (read-only mode)"}] in the
    trace block it appends, leaves the cache as it was, and does not end the
    run. *)
Theorem run_step_delete_rejected (step : nat) (llm_out : string) (st : agent) :
  extract_section llm_out "FINAL ANSWER" = EmptyString ->
  parse_action llm_out = Ok ("query_database", [(PStr "query", PStr "DELETE FROM sample")]) ->
  exists st',
    run_step step llm_out st
      = StepNext (EvDispatch (extract_section llm_out "THOUGHT") "query_database"
                    [(PStr "query", PStr "DELETE FROM sample")] delete_observation) st'
    /\ history_blocks st'
       = (history_blocks st ++
          [dispatch_block (extract_section llm_out "THOUGHT") "query_database"
             [(PStr "query", PStr "DELETE FROM sample")] delete_observation])%list
    /\ cache st' = cache st.
Proof.
  intros Ef Ep. unfold run_step. cbn [history_blocks logs cache].
  rewrite Ef. cbn [String.eqb negb]. rewrite Ep, call_tool_delete.
  eexists. split; [reflexivity|]. split; reflexivity.
Qed.

(** C7 (amended): each step of [run] that neither returns nor raises appends
    exactly one trace block, and returning or raising steps append none.  A
    block naming a tool is appended only after [_call_tool] ran that tool and
    carries its observation; the other blocks are the two synthetic
    [ACTION: N/A] blocks, for a FINAL ANSWER given on an empty history and
    for an unparsable model output, and no tool is dispatched for them.  Over
    a whole run the history grows by exactly the blocks of the non-returning
    steps, in order. *)
Theorem run_trace_blocks_by_step :
  (forall (step : nat) (llm_out : string) (st : agent),
     match run_step step llm_out st with
     | StepReturn _ st' => history_blocks st' = history_blocks st
     | StepRaise _ st' => history_blocks st' = history_blocks st
     | StepNext ev st' =>
         history_blocks st' = (history_blocks st ++ [block_of_event ev])%list
         /\ event_justified llm_out st ev
     end)
  /\
  (forall (fuel step : nat) (outs : nat -> string) (st : agent),
     history_blocks (result_state (run_loop fuel step outs st)) =
     (history_blocks st ++ map block_of_event (result_events (run_loop fuel step outs st)))%list).
Proof.
  split.
  - intros step llm_out st. pose proof (run_step_spec step llm_out st) as H.
    destruct (run_step step llm_out st); tauto.
  - exact run_loop_history.
Qed.









Lemma prefix_ci_app (p s x : string) :
  prefix_ci p (s ++ x) = true ->
  prefix_ci p s = true
  \/ (String.length s < String.length p /\ prefix_ci (sdrop (String.length s) p) x = true).
Proof.
  revert p. induction s as [|c s IH]; intros p H.
  - destruct p as [|a p]; [left; reflexivity|]. right. cbn. split; [lia|exact H].
  - destruct p as [|a p]; [left; reflexivity|]. cbn in H |- *.
    apply andb_true_iff in H as [Ha H]. rewrite Ha. cbn.
    destruct (IH p H) as [H1|[H1 H2]]; [left; exact H1|right; split; [lia|exact H2]].
Qed.

Lemma match_action_skip (s x : string) :
  s <> EmptyString -> prefix_ci "ACTION:" s = false ->
  match_action (s ++ String "A" x) = None.
Proof.
  intros Hs Hp. unfold match_action.
  destruct (prefix_ci "ACTION:" (s ++ String "A" x)) eqn:E; [|reflexivity].
  exfalso. destruct (prefix_ci_app _ _ _ E) as [H|[Hl H]]; [congruence|].
  destruct s as [|c s]; [congruence|].
  cbn [String.length] in Hl, H.
  do 6 (destruct s as [|? s]; [cbn in H; discriminate|]). cbn in Hl; lia.
Qed.

Lemma search_action_skip (pre x : string) :
  contains_ci "ACTION:" pre = false ->
  search_action (pre ++ String "A" x) = search_action (String "A" x).
Proof.
  induction pre as [|c pre IH]; intro H; [reflexivity|].
  cbn [contains_ci] in H. apply orb_false_iff in H as [H1 H2].
  change (String c pre ++ String "A" x) with (String c (pre ++ String "A" x)).
  cbn [search_action]. fold search_action.
  change (String c (pre ++ String "A" x)) with (String c pre ++ String "A" x).
  rewrite match_action_skip by (discriminate || exact H1).
  apply IH, H2.
Qed.

Lemma search_action_none (s : string) :
  contains_ci "ACTION:" s = false -> search_action s = None.
Proof.
  induction s as [|c s IH]; intro H.
  - reflexivity.
  - cbn [contains_ci] in H. apply orb_false_iff in H as [H1 H2].
    cbn [search_action]. fold search_action. unfold match_action. rewrite H1.
    apply IH, H2.
Qed.

(** C9: in any text whose first [ACTION:] marker is the P5 input
    [ACTION: describe_table{'table_name': 'sample'}], [parse_action] returns
    the tool [describe_table] with the mapping [{"table_name": "sample"}];
    strict JSON decoding of the single-quoted argument text fails and the
    quote-repaired text decodes to that mapping.  A text with no [ACTION:]
    marker (case-insensitive) makes [parse_action] raise its error naming the
    expected format [ACTION: tool_name{json_args}]. *)
Theorem parse_action_quote_repair :
  (forall pre rest : string,
     contains_ci "ACTION:" pre = false ->
     parse_action (pre ++ describe_sq_action ++ rest)
       = Ok ("describe_table", [(PStr "table_name", PStr "sample")]))
  /\ json_loads describe_sq_args = None
  /\ json_loads (fix_json_quotes describe_sq_args)
       = Some (PDict [(PStr "table_name", PStr "sample")])
  /\ (forall text : string,
        contains_ci "ACTION:" text = false ->
        parse_action text = Err (mk_exn "ValueError" no_action_msg)).
Proof.
  split; [|split; [|split]].
  - intros pre rest H. unfold parse_action.
    change (describe_sq_action ++ rest)
      with (String "A" ("CTION: describe_table" ++ describe_sq_args ++ rest)).
    rewrite (search_action_skip pre _ H).
    vm_compute. reflexivity.
  - vm_compute. reflexivity.
  - vm_compute. reflexivity.
  - intros text H. unfold parse_action. rewrite (search_action_none text H). reflexivity.
Qed.

(** The step bound: a run records at most [fuel] non-returning steps, and a
    run whose model never gives a FINAL ANSWER that is not cut short by an
    exception returns the step-limit summary after exactly [fuel] steps. *)
Lemma run_loop_step_bound (fuel step : nat) (outs : nat -> string) (st : agent) :
  List.length (result_events (run_loop fuel step outs st)) <= fuel
  /\ ((forall k, extract_section (outs k) "FINAL ANSWER" = EmptyString) ->
      forall a st' evs, run_loop fuel step outs st = Returned a st' evs ->
      a = max_step_message st' /\ List.length evs = fuel).
Proof.
  revert step st. induction fuel as [|fuel IH]; intros step st; cbn [run_loop].
  - split; [cbn; lia|]. intros _ a st' evs H. injection H as <- <- <-. auto.
  - pose proof (run_step_spec step (outs step) st) as Hs.
    destruct (run_step step (outs step) st) as [a0 st0|ev st0|e st0].
    + split; [cbn; lia|]. intros Hno a st' evs H.
      destruct Hs as (Ha & Hne & _). exfalso. apply Hne. rewrite Ha. apply Hno.
    + destruct (IH (S step) st0) as [IH1 IH2].
      destruct (run_loop fuel (S step) outs st0) as [a1 st1 evs1|e1 st1 evs1] eqn:Er;
        cbn in IH1 |- *; (split; [lia|]); intros Hno a st' evs H; [|discriminate].
      injection H as <- <- <-. destruct (IH2 Hno a1 st1 evs1 eq_refl) as [H1 H2].
      split; [exact H1|cbn; lia].
    + split; [cbn; lia|]. intros _ a st' evs H. discriminate.
Qed.


(** ** json.dumps and json.loads on strings *)

Lemma str_app_assoc (a b c : string) : (a ++ b) ++ c = a ++ (b ++ c).
Proof. induction a as [|x a IH]; simpl; [reflexivity|rewrite IH; reflexivity]. Qed.

Lemma str_app_nil (a : string) : a ++ EmptyString = a.
Proof. induction a as [|x a IH]; simpl; [reflexivity|rewrite IH; reflexivity]. Qed.

Lemma str_length_app (a b : string) :
  String.length (a ++ b) = String.length a + String.length b.
Proof. induction a as [|x a IH]; simpl; [reflexivity|rewrite IH; reflexivity]. Qed.

Lemma scan_string_escape_char (c : ascii) (fuel : nat) (r : string) :
  scan_string (S fuel) (json_escape_char c ++ r) =
  match scan_string fuel r with Some (a, r') => Some (String c a, r') | None => None end.
Proof. destruct c as [[] [] [] [] [] [] [] []]; reflexivity. Qed.

Lemma json_escape_char_length (c : ascii) : 1 <= String.length (json_escape_char c).
Proof. apply Nat.leb_le. destruct c as [[] [] [] [] [] [] [] []]; reflexivity. Qed.

Lemma json_escape_length (s : string) : String.length s <= String.length (json_escape s).
Proof.
  induction s as [|c s IH]; [cbn; lia|].
  cbn [json_escape String.length]. rewrite str_length_app.
  pose proof (json_escape_char_length c). lia.
Qed.

Lemma scan_string_json_escape (s r : string) (fuel : nat) :
  String.length s < fuel -> scan_string fuel (json_escape s ++ dq ++ r) = Some (s, r).
Proof.
  revert fuel. induction s as [|c s IH]; intros fuel H.
  - destruct fuel as [|fuel]; [cbn in H; lia|]. reflexivity.
  - destruct fuel as [|fuel]; [lia|]. cbn [json_escape].
    rewrite str_app_assoc, scan_string_escape_char, IH by (cbn in H; lia). reflexivity.
Qed.

(** [json.loads(json.dumps(s)) == s] for every string: [json_dumps] escapes
    quotes, backslashes and control characters and writes every other
    non-printable character as [\u00XX], and the strict decoder reads all
    of these back. *)
Theorem json_string_round_trip (s : string) :
  json_dumps (PStr s) = Ok (json_string s) /\ json_loads (json_string s) = Some (PStr s).
Proof.
  split; [reflexivity|]. unfold json_loads, json_string.
  change (skip_ws (dq ++ json_escape s ++ dq)) with (dq ++ json_escape s ++ dq).
  change (dq ++ json_escape s ++ dq) with (String dqc (json_escape s ++ dq ++ EmptyString)).
  cbn -[scan_string json_escape String.length append].
  rewrite scan_string_json_escape; [reflexivity|].
  cbn [String.length]. rewrite !str_length_app. pose proof (json_escape_length s). cbn. lia.
Qed.


(** ** Properties of the tools and of SQLAgent._call_tool *)

Lemma dict_get_in (k v : pyval) (kv : list (pyval * pyval)) :
  dict_get k kv = Some v -> exists k', In (k', v) kv /\ py_eq k k' = true.
Proof.
  induction kv as [|[k' v'] r IH]; cbn; [discriminate|].
  destruct (py_eq k k') eqn:E.
  - intro H. injection H as <-. exists k'. auto.
  - intro H. destruct (IH H) as (k'' & Hin & Heq). exists k''. auto.
Qed.

Lemma dict_set_keeps (k v : pyval) (kv : list (pyval * pyval)) (k' v' : pyval) :
  In (k', v') kv -> py_eq k k' = false -> In (k', v') (dict_set k v kv).
Proof.
  induction kv as [|[k1 v1] r IH]; cbn; [tauto|].
  intros [H|H] Hk.
  - injection H as -> ->. rewrite Hk. left. reflexivity.
  - destruct (py_eq k k1); [right; exact H|right; apply IH; assumption].
Qed.

Lemma find_none_all {A : Type} (f : A -> bool) (l : list A) :
  find f l = None -> forall x, In x l -> f x = false.
Proof.
  induction l as [|a l IH]; cbn; [tauto|].
  destruct (f a) eqn:E; [discriminate|]. intros H x [<-|Hx]; [exact E|apply IH; assumption].
Qed.

(** The alias [{"table": ...}] that [_norm_table_arg] accepts for
    [describe_table] never reaches the tool: the key [table] stays in the
    argument dict beside the added [table_name], the lambda rejects it, and
    [_call_tool] returns a [TypeError] observation with the cache unchanged. *)
Theorem describe_table_alias_rejected (c : evidence_cache) (args : list (pyval * pyval))
    (v : pyval) :
  dict_get (PStr "table") args = Some v ->
  exists msg, _call_tool c "describe_table" args
              = Ok (error_text (mk_exn "TypeError" msg), _norm_table_arg args, c).
Proof.
  intro H.
  assert (Hb : exists msg, bind_kwargs ["table_name"] (_norm_table_arg args)
                           = Err (mk_exn "TypeError" msg)).
  { destruct (dict_get_in _ _ _ H) as (k' & Hin & Hk).
    destruct k' as [| | | |s| | | |]; try discriminate. cbn [py_eq] in Hk.
    apply String.eqb_eq in Hk. subst s.
    assert (Hin' : In (PStr "table", v) (_norm_table_arg args)).
    { unfold _norm_table_arg. rewrite H. apply dict_set_keeps; [exact Hin|reflexivity]. }
    unfold bind_kwargs.
    destruct (forallb _ (_norm_table_arg args)); cbn [negb]; [|eexists; reflexivity].
    destruct (find _ (_norm_table_arg args)) as [[k0 x0]|] eqn:Ef; [eexists; reflexivity|].
    pose proof (find_none_all _ _ Ef _ Hin') as F. discriminate F. }
  destruct Hb as [msg Hb]. exists msg.
  unfold _call_tool. cbn [String.eqb Ascii.eqb Bool.eqb andb].
  unfold tool_call. cbn [tool_params String.eqb Ascii.eqb Bool.eqb andb]. rewrite Hb.
  reflexivity.
Qed.

Lemma map_res_columns (cols : list (list pyval)) :
  Forall (fun col => 3 <= List.length col) cols ->
  map_res (fun col => let* n := nth_res col 1 in let* ty := nth_res col 2 in
                      Ok (PDict [(PStr "name", n); (PStr "type", ty)])) cols
  = Ok (map (fun col => PDict [(PStr "name", nth 1 col PNone); (PStr "type", nth 2 col PNone)]) cols).
Proof.
  induction 1 as [|col cols Hc _ IH]; [reflexivity|].
  destruct col as [|a [|b [|ty col]]]; cbn in Hc; try lia.
  cbn [map_res map]. rewrite IH. reflexivity.
Qed.

Lemma column_names_map (cols : list (list pyval)) :
  column_names (map (fun col => PDict [(PStr "name", nth 1 col PNone); (PStr "type", nth 2 col PNone)]) cols)
  = Some (map (fun col => nth 1 col PNone) cols).
Proof.
  induction cols as [|col cols IH]; [reflexivity|].
  unfold column_names in *. cbn [map]. cbn [dict_get py_eq]. rewrite IH. reflexivity.
Qed.

(** A successful [describe_table(t)] on a non-empty name records in the
    evidence cache the column names of [t] (the second field of each
    [PRAGMA table_info] row) under [schema[t]] and the first field of the
    [SELECT COUNT( * )] row under [row_counts[t]], keeping every other entry. *)
Theorem describe_table_caches (c : evidence_cache) (t : string) (d1 d2 : list string)
    (cols rows : list (list pyval)) (r : list pyval) (n : Z) :
  t <> EmptyString ->
  db_execute ("PRAGMA table_info(" ++ t ++ ")") = DbRows d1 cols ->
  Forall (fun col => 3 <= List.length col) cols ->
  db_execute ("SELECT COUNT(*) FROM " ++ t) = DbRows d2 ((PInt n :: r) :: rows) ->
  exists obs, _call_tool c "describe_table" [(PStr "table_name", PStr t)]
    = Ok (obs, [(PStr "table_name", PStr t)],
          mk_cache (tables c)
            (dict_set (PStr t) (PList (map (fun col => nth 1 col PNone) cols)) (schema c))
            (dict_set (PStr t) (PInt n) (row_counts c))).
Proof.
  intros Ht H1 Hc H2.
  assert (Hd : _describe_table (PStr t) = Ok (PDict [(PStr "table_name", PStr t);
      (PStr "columns", PList (map (fun col => PDict [(PStr "name", nth 1 col PNone);
                                                    (PStr "type", nth 2 col PNone)]) cols));
      (PStr "row_count", PInt n)])).
  { unfold _describe_table. cbn [py_str]. rewrite H1, H2. cbn [nth_res nth_error bind].
    rewrite map_res_columns by exact Hc. reflexivity. }
  unfold _call_tool. cbn [String.eqb Ascii.eqb Bool.eqb andb].
  change (_norm_table_arg [(PStr "table_name", PStr t)]) with [(PStr "table_name", PStr t)].
  unfold tool_call. cbn [tool_params String.eqb Ascii.eqb Bool.eqb andb get_tool].
  change (bind_kwargs ["table_name"] [(PStr "table_name", PStr t)]) with (Ok [PStr t]:res (list pyval)).
  cbn [bind get_tool existsb tool_names]. rewrite Hd.
  assert (Ha : truthy (PStr t) = true) by (destruct t; [congruence|reflexivity]).
  match goal with |- context [render_output ?o] => destruct (render_output o) end;
    eexists; f_equal; f_equal; f_equal;
    unfold _ingest_observation; cbn [String.eqb Ascii.eqb Bool.eqb andb dict_get py_eq];
    rewrite Ha; destruct cols as [|col cols']; reflexivity || (rewrite column_names_map; reflexivity).
Qed.

Lemma stake_length (n : nat) (s : string) : String.length (stake n s) = Nat.min n (String.length s).
Proof.
  revert s; induction n as [|n IH]; intros [|c s]; simpl; auto.
Qed.

Lemma bind_kwargs_none_extra (args : list (pyval * pyval)) :
  args <> [] -> exists msg, bind_kwargs [] args = Err (mk_exn "TypeError" msg).
Proof.
  intro H. unfold bind_kwargs.
  destruct (forallb _ args) eqn:Ef; cbn [negb]; [|eexists; reflexivity].
  destruct args as [|[k x] args]; [congruence|].
  cbn [forallb fst andb] in Ef. destruct k as [| | | |s| | | |]; try discriminate.
  eexists. reflexivity.
Qed.

(** [list_tables] called without arguments stores the database's table list
    in the evidence cache and returns its [repr] cut to 2000 characters;
    called with any argument it returns a [TypeError] observation and leaves
    the cache unchanged. *)
Theorem list_tables_call (c : evidence_cache) (args : list (pyval * pyval)) :
  (args = [] ->
   _call_tool c "list_tables" args
   = Ok (stake 2000 (py_repr (PList (map PStr db_table_names))), [],
         mk_cache (PList (map PStr db_table_names)) (schema c) (row_counts c)))
  /\ (args <> [] -> exists msg,
        _call_tool c "list_tables" args = Ok (error_text (mk_exn "TypeError" msg), args, c)).
Proof.
  split.
  - intros ->. reflexivity.
  - intro H. destruct (bind_kwargs_none_extra args H) as [msg Hm]. exists msg.
    unfold _call_tool, tool_call. cbn [String.eqb Ascii.eqb Bool.eqb andb tool_params].
    rewrite Hm. reflexivity.
Qed.

(** Every observation [_call_tool] renders from a tool's result is at most
    2015 characters long: 2000 characters of the text and the
    [ ...[truncated]] marker. *)
Lemma ok_text_eq (a s : string) : @Ok string a = Ok s -> a = s.
Proof. intro H. exact (f_equal (fun r => match r with Ok x => x | Err _ => EmptyString end) H). Qed.

Theorem render_output_bounded (out : pyval) (s : string) :
  render_output out = Ok s -> String.length s <= 2015.
Proof.
  destruct out; cbn [render_output];
    try (intro H; apply ok_text_eq in H; subst s; rewrite stake_length; lia).
  match goal with |- context [json_dumps ?o] => destruct (json_dumps o) as [body|e] end;
    cbn [bind]; [|discriminate].
  destruct (Nat.ltb 2000 (String.length body)) eqn:E; intro H; apply ok_text_eq in H; subst s.
  - rewrite str_length_app, stake_length. change (String.length " ...[truncated]") with 15. lia.
  - apply Nat.ltb_ge in E. lia.
Qed.

(** A [query_database] call never changes the evidence cache. *)
Theorem query_database_keeps_cache (c : evidence_cache) (args : list (pyval * pyval))
    (obs : string) (args' : list (pyval * pyval)) (c' : evidence_cache) :
  _call_tool c "query_database" args = Ok (obs, args', c') -> c' = c.
Proof.
  unfold _call_tool. cbn [String.eqb Ascii.eqb Bool.eqb andb get_tool existsb tool_names bind].
  destruct (tool_call "query_database" args) as [out|e].
  - destruct (render_output out); intro H; injection H as _ _ <-; reflexivity.
  - intro H. injection H as _ _ <-. reflexivity.
Qed.


(** ** The log of SQLAgent.run *)

Lemma run_step_logs (step : nat) (llm_out : string) (st : agent) :
  logs (match run_step step llm_out st with
        | StepReturn _ st' | StepNext _ st' | StepRaise _ st' => st' end)
  = app (logs st) ["[STEP " ++ string_of_nat step ++ "] THOUGHT: " ++
                    or_default (extract_section llm_out "THOUGHT") "(none)"].
Proof.
  unfold run_step. cbn [history_blocks logs cache].
  destruct (negb (String.eqb (extract_section llm_out "FINAL ANSWER") EmptyString)).
  - destruct (history_blocks st); reflexivity.
  - destruct (parse_action llm_out) as [[tool_name args]|e]; [|reflexivity].
    destruct (_call_tool (cache st) tool_name args) as [[[obs args'] c']|e]; reflexivity.
Qed.

(** Every call of the model in [run] logs exactly one line
    [[STEP k] THOUGHT: ...] with the reply's THOUGHT section (or [(none)]):
    the log grows by the lines of steps [0, 1, ..., m-1] in order, for some
    [m] no larger than the step limit, and nothing else is logged. *)
Theorem run_logs (step_limit : Z) (outs : nat -> string) (st : agent) :
  exists m, m <= Z.to_nat step_limit
   /\ logs (result_state (run step_limit outs st))
      = app (logs st) (map (fun k => "[STEP " ++ string_of_nat k ++ "] THOUGHT: " ++
                                     or_default (extract_section (outs k) "THOUGHT") "(none)")
                           (seq 0 m)).
Proof.
  unfold run. generalize 0 as step. revert st.
  induction (Z.to_nat step_limit) as [|fuel IH]; intros st step; cbn [run_loop].
  - exists 0. split; [lia|]. cbn. rewrite app_nil_r. reflexivity.
  - pose proof (run_step_logs step (outs step) st) as Hl.
    destruct (run_step step (outs step) st) as [a0 st0|ev st0|e st0].
    + exists 1. split; [lia|]. exact Hl.
    + destruct (IH st0 (S step)) as (m & Hm & Hlog). exists (S m). split; [lia|].
      destruct (run_loop fuel (S step) outs st0) as [a1 st1 evs1|e1 st1 evs1];
        cbn [result_state] in Hlog |- *; rewrite Hlog, Hl, <- app_assoc; reflexivity.
    + exists 1. split; [lia|]. exact Hl.
Qed.

End Core.

(** * Further properties of the utilities *)

Lemma stake_prefix (n : nat) (s : string) : prefix (stake n s) s = true.
Proof.
  revert s; induction n as [|n IH]; intros [|c s]; simpl; try reflexivity.
  destruct (ascii_dec c c); [apply IH|congruence].
Qed.

(** [truncate_text] keeps a text no longer than [max_length] and otherwise
    returns a prefix of the text followed by [" ...[truncated]"]; the prefix
    has [max_length] characters for a non-negative bound, but a negative
    bound counts from the end (so [truncate_text "abcdef" (-2)] keeps
    ["abcd"]). *)
Theorem truncate_text_shape (text : string) (max_length : Z) :
  (Z.of_nat (String.length text) <= max_length -> truncate_text text max_length = text)%Z
  /\ ((max_length < Z.of_nat (String.length text))%Z ->
      exists p, truncate_text text max_length = p ++ " ...[truncated]"
                /\ prefix p text = true
                /\ Z.of_nat (String.length p)
                   = (if Z.ltb max_length 0
                      then Z.max 0 (Z.of_nat (String.length text) + max_length)
                      else max_length)%Z).
Proof.
  unfold truncate_text. split.
  - intro H. apply Z.leb_le in H. rewrite H. reflexivity.
  - intro H. destruct (Z.leb_spec (Z.of_nat (String.length text)) max_length); [lia|].
    exists (slice_to text max_length). split; [reflexivity|]. unfold slice_to.
    destruct (Z.ltb_spec max_length 0).
    + split; [apply stake_prefix|]. rewrite stake_length. lia.
    + split; [apply stake_prefix|]. rewrite stake_length. lia.
Qed.

Lemma span_all (p : ascii -> bool) (w r : string) :
  (forall c, In c (list_ascii_of_string w) -> p c = true) ->
  match r with String c _ => p c = false | EmptyString => True end ->
  span p (w ++ r) = (w, r).
Proof.
  intros Hw Hr. induction w as [|c w IH]; simpl.
  - destruct r as [|c r]; [reflexivity|]. simpl in Hr |- *. rewrite Hr. reflexivity.
  - rewrite (Hw c (or_introl eq_refl)). rewrite IH; [reflexivity|].
    intros x Hx. apply Hw. right. exact Hx.
Qed.

(** [sanitize_identifier] returns its argument unchanged exactly when it is
    a letter or underscore followed by letters, digits and underscores,
    optionally followed by one final newline (which regex [$] accepts), and
    raises [ValueError] otherwise. *)
Theorem sanitize_identifier_accepts (identifier : string) :
  (sanitize_identifier identifier = Ok identifier <->
   exists c w, ident_start c = true
               /\ (forall x, In x (list_ascii_of_string w) -> ident_char x = true)
               /\ (identifier = String c w \/ identifier = String c w ++ nl))
  /\ (sanitize_identifier identifier <> Ok identifier ->
      exists msg, sanitize_identifier identifier = Err (mk_exn "ValueError" msg)).
Proof.
  unfold sanitize_identifier. split.
  - split.
    + intro H. destruct (identifier_match identifier) eqn:E; [|discriminate].
      destruct identifier as [|c r]; [discriminate|]. simpl in E.
      apply andb_prop in E as [Hc E].
      destruct (span ident_char r) as [a rest] eqn:Es.
      destruct (span_split _ _ _ _ Es) as (-> & Ha & _).
      exists c, a. split; [exact Hc|]. split; [exact Ha|].
      apply orb_prop in E as [E|E]; apply String.eqb_eq in E; subst rest.
      * left. rewrite str_app_nil. reflexivity.
      * right. reflexivity.
    + intros (c & w & Hc & Hw & Hi).
      assert (E : identifier_match identifier = true).
      { destruct Hi as [-> | ->]; [|cbn [append]]; unfold identifier_match; cbv beta iota;
          rewrite Hc.
        - rewrite <- (str_app_nil w), (span_all ident_char w EmptyString Hw I). reflexivity.
        - rewrite (span_all ident_char w nl Hw eq_refl). reflexivity. }
      rewrite E. reflexivity.
  - destruct (identifier_match identifier); [congruence|]. intros _. eexists. reflexivity.
Qed.

Lemma retry_loop_all_fail {A : Type} (func : nat -> res A) (max_retries : Z)
    (n attempt k : nat) (last : option exn) :
  (forall i, attempt <= i < attempt + n -> exists e, func i = Err e) ->
  retry_calls (snd (retry_loop func max_retries n attempt k last)) = seq attempt n.
Proof.
  revert attempt k last. induction n as [|n IH]; intros attempt k last H; [reflexivity|].
  cbn [retry_loop]. destruct (H attempt ltac:(lia)) as [e He]. rewrite He.
  assert (H' : forall i, S attempt <= i < S attempt + n -> exists e, func i = Err e)
    by (intros i Hi; apply H; lia).
  destruct (Z.ltb (Z.of_nat attempt) (max_retries - 1)).
  - specialize (IH (S attempt) (S k) (Some e) H').
    destruct (retry_loop func max_retries n (S attempt) (S k) (Some e)) as [r evs].
    cbn in *. rewrite IH. reflexivity.
  - specialize (IH (S attempt) k (Some e) H').
    destruct (retry_loop func max_retries n (S attempt) k (Some e)) as [r evs].
    cbn in *. rewrite IH. reflexivity.
Qed.

Lemma retry_loop_success {A : Type} (func : nat -> res A) (max_retries : Z) (v : A) :
  forall j n attempt k last,
  (forall i, attempt <= i < attempt + j -> exists e, func i = Err e) ->
  func (attempt + j) = Ok v -> j < n -> (Z.of_nat (attempt + j) < max_retries)%Z ->
  fst (retry_loop func max_retries n attempt k last) = Ok v
  /\ retry_calls (snd (retry_loop func max_retries n attempt k last)) = seq attempt (S j)
  /\ retry_sleeps (snd (retry_loop func max_retries n attempt k last)) = seq k j.
Proof.
  induction j as [|j IH]; intros n attempt k last Hf Hv Hn Hm;
    (destruct n as [|n]; [lia|]); cbn [retry_loop].
  - rewrite Nat.add_0_r in Hv. rewrite Hv. cbn. auto.
  - destruct (Hf attempt ltac:(lia)) as [e He]. rewrite He.
    destruct (Z.ltb_spec (Z.of_nat attempt) (max_retries - 1)); [|lia].
    destruct (IH n (S attempt) (S k) (Some e)) as (H1 & H2 & H3);
      [intros i Hi; apply Hf; lia|rewrite <- Hv; f_equal; lia|lia|lia|].
    destruct (retry_loop func max_retries n (S attempt) (S k) (Some e)) as [r evs].
    cbn [fst snd] in *. split; [exact H1|].
    unfold retry_calls, retry_sleeps in *. cbn [flat_map app] in *. rewrite H2, H3. auto.
Qed.

Lemma retry_loop_S {A : Type} (func : nat -> res A) (max_retries : Z) n attempt k last :
  retry_loop func max_retries (S n) attempt k last =
  match func attempt with
  | Ok v => (Ok v, [RCall attempt])
  | Err e =>
      let warn := RWarn ("Attempt " ++ string_of_nat (S attempt) ++ "/" ++
                         string_of_Z max_retries ++ " failed: " ++ exn_msg e) in
      if Z.ltb (Z.of_nat attempt) (max_retries - 1) then
        let (r, evs) := retry_loop func max_retries n (S attempt) (S k) (Some e) in
        (r, RCall attempt :: warn :: RRetryIn k :: RSleep k :: evs)
      else
        let (r, evs) := retry_loop func max_retries n (S attempt) k (Some e) in
        (r, RCall attempt :: warn :: evs)
  end.
Proof. reflexivity. Qed.

Lemma retry_loop_failure {A : Type} (func : nat -> res A) (max_retries : Z) (e_last : exn) :
  forall n attempt k last,
  attempt + S n = Z.to_nat max_retries ->
  (forall i, attempt <= i < attempt + S n -> exists e, func i = Err e) ->
  func (attempt + n) = Err e_last ->
  fst (retry_loop func max_retries (S n) attempt k last) = Err e_last
  /\ retry_sleeps (snd (retry_loop func max_retries (S n) attempt k last)) = seq k n.
Proof.
  induction n as [|n IH]; intros attempt k last Hm Hf Hl; rewrite retry_loop_S.
  - rewrite Nat.add_0_r in Hl. rewrite Hl. cbv zeta.
    destruct (Z.ltb_spec (Z.of_nat attempt) (max_retries - 1)); [lia|]. cbn. auto.
  - destruct (Hf attempt ltac:(lia)) as [e He]. rewrite He.
    destruct (Z.ltb_spec (Z.of_nat attempt) (max_retries - 1)); [|lia].
    destruct (IH (S attempt) (S k) (Some e)) as (H1 & H2);
      [lia|intros i Hi; apply Hf; lia|rewrite <- Hl; f_equal; lia|].
    cbv zeta.
    destruct (retry_loop func max_retries (S n) (S attempt) (S k) (Some e)) as [r evs].
    cbn [fst snd] in *. split; [exact H1|].
    unfold retry_sleeps in *. cbn [flat_map app] in *. rewrite H2. auto.
Qed.

(** [retry_with_backoff func max_retries] calls [func] until a call
    succeeds, at most [max_retries] times, sleeping before each retry with
    the delay multiplied by 4 each time.  If the [k]-th call is the first
    success and [k < max_retries], it returns that value after calls
    [0..k] and [k] sleeps (delays [initial_delay * 4^0 .. 4^(k-1)]); if all
    [max_retries] calls fail it re-raises the last failure after
    [max_retries - 1] sleeps; and with [max_retries <= 0] it calls nothing
    and raises [TypeError] ([raise None]). *)
Theorem retry_with_backoff_outcomes {A : Type} (func : nat -> res A) (max_retries : Z) :
  ((max_retries <= 0)%Z ->
   retry_with_backoff func max_retries
   = (Err (mk_exn "TypeError" "exceptions must derive from BaseException"), []))
  /\ (forall (k : nat) (v : A),
        (forall i, i < k -> exists e, func i = Err e) -> func k = Ok v ->
        (Z.of_nat k < max_retries)%Z ->
        fst (retry_with_backoff func max_retries) = Ok v
        /\ retry_calls (snd (retry_with_backoff func max_retries)) = seq 0 (S k)
        /\ retry_sleeps (snd (retry_with_backoff func max_retries)) = seq 0 k)
  /\ (forall e_last : exn,
        (1 <= max_retries)%Z ->
        (forall i, i < Z.to_nat max_retries -> exists e, func i = Err e) ->
        func (Z.to_nat max_retries - 1) = Err e_last ->
        fst (retry_with_backoff func max_retries) = Err e_last
        /\ retry_calls (snd (retry_with_backoff func max_retries)) = seq 0 (Z.to_nat max_retries)
        /\ retry_sleeps (snd (retry_with_backoff func max_retries))
           = seq 0 (Z.to_nat max_retries - 1)).
Proof.
  unfold retry_with_backoff. split; [|split].
  - intro H. replace (Z.to_nat max_retries) with 0 by lia. reflexivity.
  - intros k v Hf Hv Hk.
    apply (retry_loop_success func max_retries v k); [intros i Hi; apply Hf; lia|exact Hv|lia|lia].
  - intros e_last Hm Hf Hl.
    destruct (Z.to_nat max_retries) as [|n] eqn:En; [lia|].
    replace (S n - 1) with n in * by lia.
    destruct (retry_loop_failure func max_retries e_last n 0 0 None) as [H1 H2];
      [lia|intros i Hi; apply Hf; lia|exact Hl|].
    split; [exact H1|]. split; [|exact H2].
    apply retry_loop_all_fail. intros i Hi. apply Hf. lia.
Qed.

(** ** A one-argument tool call written with json.dumps, read back by parse_action *)

(** Evaluate [code] and [is_json_ws] at the literal characters of a goal. *)
Ltac char_literals :=
  repeat match goal with
  | |- context [code ?c] =>
      let n := eval vm_compute in (code c) in change (code c) with n
  | |- context [is_json_ws ?c] =>
      let b := eval vm_compute in (is_json_ws c) in change (is_json_ws c) with b
  end.

Lemma scan_value_one_pair (json_float : string -> string) (k v r : string) (f : nat) :
  String.length k + String.length v + 2 < f ->
  scan_value json_float (S f) (String "{"%char (String dqc (json_escape k ++ dq ++ ": " ++ dq ++ json_escape v ++ dq ++ String "}"%char r)))
  = Some (PDict [(PStr k, PStr v)], r).
Proof.
  intro H. destruct f as [|f]; [lia|].
  assert (Hv : scan_string f (json_escape v ++ dq ++ String "}"%char r) = Some (v, String "}"%char r))
    by (apply scan_string_json_escape; lia).
  remember (json_escape v ++ dq ++ String "}"%char r) as Z eqn:HZ.
  assert (Hk : scan_string (S f) (json_escape k ++ dq ++ (": " ++ dq ++ Z)) = Some (k, ": " ++ dq ++ Z))
    by (apply scan_string_json_escape; lia).
  remember (json_escape k ++ dq ++ (": " ++ dq ++ Z)) as X eqn:HX.
  do 2 (cbn -[scan_string code is_json_ws]; char_literals).
  rewrite Hk. do 3 (cbn -[scan_string code is_json_ws]; char_literals).
  rewrite Hv. do 3 (cbn -[scan_string code is_json_ws]; char_literals).
  reflexivity.
Qed.

Lemma list_ascii_of_string_app' (a b : string) :
  list_ascii_of_string (a ++ b) = (list_ascii_of_string a ++ list_ascii_of_string b)%list.
Proof. induction a as [|c a IH]; cbn; [reflexivity|]. rewrite IH. reflexivity. Qed.

Lemma json_escape_char_no_brace (c : ascii) :
  forallb (fun x => negb (Ascii.eqb x "}")) (list_ascii_of_string (json_escape_char c))
  = negb (Ascii.eqb c "}").
Proof. destruct c as [[] [] [] [] [] [] [] []]; reflexivity. Qed.

Lemma json_escape_no_brace (s : string) :
  (forall c, In c (list_ascii_of_string s) -> c <> "}"%char) ->
  forall x, In x (list_ascii_of_string (json_escape s)) -> x <> "}"%char.
Proof.
  induction s as [|c s IH]; intros Hs x Hx; [destruct Hx|].
  cbn [json_escape] in Hx. rewrite list_ascii_of_string_app' in Hx.
  apply in_app_or in Hx as [Hx|Hx].
  - pose proof (json_escape_char_no_brace c) as E.
    assert (Hc : negb (Ascii.eqb c "}") = true).
    { destruct (Ascii.eqb_spec c "}"); [|reflexivity]. exfalso. apply (Hs c); [left|]; auto. }
    rewrite Hc in E. rewrite forallb_forall in E. specialize (E x Hx).
    destruct (Ascii.eqb_spec x "}"); [discriminate|assumption].
  - apply IH; [|exact Hx]. intros y Hy. apply Hs. right. exact Hy.
Qed.

Lemma rstrip_by_last (p : ascii -> bool) (s : string) (c : ascii) :
  p c = false -> rstrip_by p (s ++ String c EmptyString) = s ++ String c EmptyString.
Proof.
  intro Hc. induction s as [|a s IH].
  - cbn. rewrite Hc. reflexivity.
  - cbn [append rstrip_by]. rewrite IH.
    destruct (s ++ String c EmptyString) eqn:E; [destruct s; discriminate|reflexivity].
Qed.

Lemma in_list_ascii_app (x : ascii) (a b : string) :
  In x (list_ascii_of_string (a ++ b)) <->
  In x (list_ascii_of_string a) \/ In x (list_ascii_of_string b).
Proof. rewrite list_ascii_of_string_app'. split; [apply in_app_or|apply in_or_app]. Qed.

Lemma search_action_here (s : string) m :
  match_action s = Some m -> search_action s = Some m.
Proof. destruct s; cbn [search_action]; intro H; rewrite H; reflexivity. Qed.

Lemma span_cons_true (p : ascii -> bool) (c : ascii) (s : string) :
  p c = true -> span p (String c s) = let (a, b) := span p s in (String c a, b).
Proof. intro H. cbn. rewrite H. reflexivity. Qed.

Lemma span_cons_false (p : ascii -> bool) (c : ascii) (s : string) :
  p c = false -> span p (String c s) = (EmptyString, String c s).
Proof. intro H. cbn. rewrite H. reflexivity. Qed.

Lemma is_word_not_space (c : ascii) : is_word c = true -> is_space c = false.
Proof. destruct c as [[] [] [] [] [] [] [] []]; cbv; congruence. Qed.

(** [json.dumps] of a one-pair string mapping [{k: v}], written right after
    an [ACTION: name] marker, is read back by [parse_action] as the tool
    [name] with the mapping [{k: v}], whatever text precedes the marker (when
    it holds no other marker) and whatever follows the object, provided [k]
    and [v] contain no closing brace (the argument pattern [\{[^}]* \}] stops
    at the first one). *)
Theorem parse_action_dumps_round_trip (json_float : string -> string)
    (literal_eval : string -> option pyval) (k v : string) :
  (forall c, In c (list_ascii_of_string k) -> c <> "}"%char) ->
  (forall c, In c (list_ascii_of_string v) -> c <> "}"%char) ->
  exists J, json_dumps (PDict [(PStr k, PStr v)]) = Ok J
   /\ forall pre name rest,
        contains_ci "ACTION:" pre = false -> name <> EmptyString ->
        (forall c, In c (list_ascii_of_string name) -> is_word c = true) ->
        parse_action json_float literal_eval (pre ++ "ACTION: " ++ name ++ J ++ rest)
          = Ok (name, [(PStr k, PStr v)]).
Proof.
  intros Hk Hv.
  exists ("{" ++ dq ++ json_escape k ++ dq ++ ": " ++ dq ++ json_escape v ++ dq ++ "}").
  split.
  { cbn -[json_escape append]. unfold json_string. rewrite !str_app_assoc. reflexivity. }
  intros pre name rest Hpre Hname Hw.
  set (B := dq ++ json_escape k ++ dq ++ ": " ++ dq ++ json_escape v ++ dq).
  assert (HJ : "{" ++ dq ++ json_escape k ++ dq ++ ": " ++ dq ++ json_escape v ++ dq ++ "}"
               = "{" ++ B ++ "}") by (unfold B; rewrite !str_app_assoc; reflexivity).
  rewrite HJ.
  assert (HB : forall c, In c (list_ascii_of_string B) -> c <> "}"%char).
  { intros c Hc. unfold B in Hc. cbn [list_ascii_of_string append dq] in Hc.
    destruct Hc as [<-|Hc]; [unfold dqc; discriminate|].
    apply in_list_ascii_app in Hc as [Hc|Hc]; [exact (json_escape_no_brace k Hk c Hc)|].
    cbn [list_ascii_of_string] in Hc.
    do 4 (destruct Hc as [<-|Hc]; [unfold dqc; discriminate|]).
    apply in_list_ascii_app in Hc as [Hc|Hc]; [exact (json_escape_no_brace v Hv c Hc)|].
    destruct Hc as [<-|[]]. unfold dqc; discriminate. }
  assert (Hm : match_action ("ACTION: " ++ name ++ ("{" ++ B ++ "}") ++ rest)
               = Some (name, Some ("{" ++ B ++ "}"))).
  { unfold match_action.
    change (prefix_ci "ACTION:" ("ACTION: " ++ name ++ ("{" ++ B ++ "}") ++ rest)) with true.
    cbv iota.
    change (sdrop 7 ("ACTION: " ++ name ++ ("{" ++ B ++ "}") ++ rest))
      with (String " " (name ++ ("{" ++ B ++ "}") ++ rest)).
    rewrite (span_cons_true is_space " " _ eq_refl).
    destruct name as [|c n]; [congruence|].
    change ((String c n ++ ("{" ++ B ++ "}") ++ rest)) with (String c (n ++ ("{" ++ B ++ "}") ++ rest)).
    rewrite (span_cons_false is_space c _ (is_word_not_space c (Hw c (or_introl eq_refl)))).
    change (String c (n ++ ("{" ++ B ++ "}") ++ rest)) with (String c n ++ ("{" ++ B ++ "}") ++ rest).
    rewrite (span_all is_word (String c n) (("{" ++ B ++ "}") ++ rest) Hw eq_refl).
    cbv iota beta. cbn [String.eqb].
    change (("{" ++ B ++ "}") ++ rest) with (String "{" ((B ++ "}") ++ rest)).
    rewrite (span_cons_false is_space "{" _ eq_refl).
    cbv iota beta. unfold brace_group. rewrite str_app_assoc.
    rewrite (span_all _ B ("}" ++ rest)); [reflexivity| |reflexivity].
    intros x Hx. apply negb_true_iff. destruct (Ascii.eqb_spec x "}"); [|reflexivity].
    exfalso. exact (HB x Hx e). }
  assert (Hs : strip ("{" ++ B ++ "}") = "{" ++ B ++ "}").
  { unfold strip. change (lstrip_by is_space ("{" ++ B ++ "}")) with ("{" ++ B ++ "}").
    rewrite <- str_app_assoc. apply rstrip_by_last. reflexivity. }
  assert (Hl : json_loads json_float ("{" ++ B ++ "}") = Some (PDict [(PStr k, PStr v)])).
  { unfold json_loads. change (skip_ws ("{" ++ B ++ "}")) with ("{" ++ B ++ "}").
    rewrite <- HJ.
    change ("{" ++ dq ++ json_escape k ++ dq ++ ": " ++ dq ++ json_escape v ++ dq ++ "}")
      with (String "{" (String dqc (json_escape k ++ dq ++ ": " ++ dq ++ json_escape v ++ dq
                                     ++ String "}" EmptyString))).
    rewrite scan_value_one_pair; [reflexivity|].
    cbn [String.length]. rewrite !str_length_app.
    pose proof (json_escape_length k). pose proof (json_escape_length v). cbn. lia. }
  unfold parse_action.
  change ("ACTION: " ++ name ++ ("{" ++ B ++ "}") ++ rest)
    with (String "A" ("CTION: " ++ name ++ ("{" ++ B ++ "}") ++ rest)).
  rewrite (search_action_skip pre _ Hpre).
  change (String "A" ("CTION: " ++ name ++ ("{" ++ B ++ "}") ++ rest))
    with ("ACTION: " ++ name ++ ("{" ++ B ++ "}") ++ rest).
  rewrite (search_action_here _ _ Hm).
  cbv iota beta zeta. rewrite Hs, Hl. reflexivity.
Qed.


(** ** The query_database tool and the database *)


(** ** utils.extract_section *)









(** ** The text validate_sql hands to the database *)

Lemma upper_app (a b : string) : upper (a ++ b) = upper a ++ upper b.
Proof. induction a as [|c a IH]; cbn; [reflexivity|]. rewrite IH. reflexivity. Qed.

Lemma count_char_app (ch : ascii) (a b : string) :
  count_char ch (a ++ b) = count_char ch a + count_char ch b.
Proof. induction a as [|c a IH]; cbn; [reflexivity|]. rewrite IH. lia. Qed.

Lemma prefix_app_l (p a b : string) : prefix p a = true -> prefix p (a ++ b) = true.
Proof.
  revert a. induction p as [|c p IH]; intros a H; [destruct (a ++ b); reflexivity|].
  destruct a as [|c' a]; cbn in H |- *; [discriminate|].
  destruct (ascii_dec c c'); [apply IH, H|discriminate].
Qed.

Lemma prefix_app_cases (p a b : string) :
  prefix p (a ++ b) = true ->
  prefix p a = true \/ (String.length a < String.length p /\ prefix (sdrop (String.length a) p) b = true).
Proof.
  revert p. induction a as [|c a IH]; intros p H.
  - destruct p as [|x p]; [left; reflexivity|]. right. cbn. split; [lia|exact H].
  - destruct p as [|x p]; [left; reflexivity|]. cbn in H |- *.
    destruct (ascii_dec x c); [|discriminate].
    destruct (IH p H) as [H1|[H1 H2]]; [left; exact H1|right; split; [lia|exact H2]].
Qed.

(** [s = rstrip(s) + t], where [t] holds only stripped characters. *)
Lemma rstrip_by_split (p : ascii -> bool) (s : string) :
  exists t, s = rstrip_by p s ++ t /\ forall c, In c (list_ascii_of_string t) -> p c = true.
Proof.
  induction s as [|c s (t & Ht & Hp)]; [exists EmptyString; split; [reflexivity|intros c []]|].
  cbn [rstrip_by].
  destruct (String.eqb (rstrip_by p s) EmptyString) eqn:E1; destruct (p c) eqn:E2; cbn [andb];
    try (exists t; split; [cbn; rewrite <- Ht; reflexivity|exact Hp]).
  apply String.eqb_eq in E1. rewrite E1 in Ht. cbn in Ht. subst s.
  exists (String c t). split; [reflexivity|]. intros x [<-|Hx]; [exact E2|apply Hp, Hx].
Qed.

Lemma rstrip_by_last_char (p : ascii -> bool) (s : string) :
  match last_opt (rstrip_by p s) with Some c => p c = false | None => True end.
Proof.
  induction s as [|c s IH]; cbn [rstrip_by]; [exact I|].
  destruct (String.eqb (rstrip_by p s) EmptyString) eqn:E1; destruct (p c) eqn:E2; cbn [andb];
    try exact I;
    [apply String.eqb_eq in E1; rewrite E1; exact E2| |];
    destruct (rstrip_by p s) as [|x r]; [discriminate|exact IH| discriminate|exact IH].
Qed.

Lemma last_opt_app_cons (a : string) (c : ascii) (r : string) :
  last_opt (a ++ String c r) = last_opt (String c r).
Proof.
  induction a as [|x a IH]; [reflexivity|]. cbn [append].
  rewrite <- IH. destruct (a ++ String c r) eqn:E; [destruct a; discriminate|reflexivity].
Qed.

Lemma prefix_select_rstrip (s : string) :
  prefix "SELECT" (upper s) = true -> prefix "SELECT" (upper (rstrip_char ";" s)) = true.
Proof.
  intro H. unfold rstrip_char. destruct (rstrip_by_split (Ascii.eqb ";") s) as (t & Ht & Hp).
  rewrite Ht, upper_app in H. destruct (prefix_app_cases _ _ _ H) as [H1|[H1 H2]]; [exact H1|].
  exfalso.
  assert (Hb : forall p', p' <> EmptyString -> Ascii.eqb (match p' with String x _ => x | _ => "A"%char end) ";" = false ->
                 prefix p' (upper t) = false).
  { intros p' Hne Hx. destruct p' as [|x p']; [congruence|]. destruct t as [|c t]; [reflexivity|].
    assert (Hc : c = ";"%char) by (apply Ascii.eqb_eq, Hp; left; reflexivity). subst c. cbn [upper prefix].
    change (upper_char ";") with ";"%char.
    destruct (ascii_dec x ";"); [subst; discriminate|reflexivity]. }
  remember (String.length (upper (rstrip_by (Ascii.eqb ";") s))) as n.
  do 6 (destruct n as [|n]; [rewrite Hb in H2; [discriminate|discriminate|reflexivity]|]).
  cbn in H1. lia.
Qed.

(** When [validate_sql] accepts a query, the text it returns (the one
    [query_database] runs) is the stripped query with its trailing
    semicolons removed, possibly followed by [ LIMIT 100]; it starts with
    [SELECT] (case-insensitively), holds at most one semicolon and does not
    end with one. *)
Theorem validate_sql_accepted_text (q : string) (tables : list string) (fixed : string) :
  validate_sql q tables = (true, fixed) ->
  (fixed = rstrip_char ";" (strip q) \/ fixed = rstrip_char ";" (strip q) ++ " LIMIT 100")
  /\ prefix "SELECT" (upper fixed) = true
  /\ count_char ";" fixed <= 1
  /\ last_opt fixed <> Some ";"%char.
Proof.
  unfold validate_sql.
  destruct (prefix "SELECT" (upper (strip q))) eqn:Hsel; cbn [negb]; [|discriminate].
  destruct (first_forbidden forbidden (upper (strip q))); [discriminate|].
  destruct (first_unknown _ _); [discriminate|].
  destruct (Nat.ltb 1 (count_char ";" (strip q))) eqn:Hcnt; [discriminate|].
  apply Nat.ltb_ge in Hcnt.
  assert (Hcount : count_char ";" (rstrip_char ";" (strip q)) <= 1).
  { destruct (rstrip_by_split (Ascii.eqb ";") (strip q)) as (t & Ht & _).
    unfold rstrip_char. rewrite Ht, count_char_app in Hcnt. lia. }
  pose proof (prefix_select_rstrip _ Hsel) as Hsel'.
  destruct (negb (contains "LIMIT" (upper (strip q)))); intro H; injection H as <-.
  - split; [right; reflexivity|]. split; [rewrite upper_app; apply prefix_app_l, Hsel'|].
    split; [rewrite count_char_app; cbn; lia|].
    rewrite last_opt_app_cons. cbn. discriminate.
  - split; [left; reflexivity|]. split; [exact Hsel'|]. split; [exact Hcount|].
    pose proof (rstrip_by_last_char (Ascii.eqb ";") (strip q)) as Hl. unfold rstrip_char.
    destruct (last_opt (rstrip_by (Ascii.eqb ";") (strip q))) as [c|]; [|discriminate].
    intro E. injection E as ->. discriminate Hl.
Qed.


(** ** json.dumps writes printable ASCII *)

Lemma json_escape_char_printable (c : ascii) :
  forallb (fun x => Nat.leb 32 (code x) && Nat.leb (code x) 126)
          (list_ascii_of_string (json_escape_char c)) = true.
Proof. destruct c as [[] [] [] [] [] [] [] []]; reflexivity. Qed.

(** The JSON text [json.dumps] writes for a string (with [ensure_ascii])
    consists of printable ASCII characters only (codes 32 to 126): control
    characters and characters above 126 are written as escapes. *)
Theorem json_string_printable (s : string) :
  forall x, In x (list_ascii_of_string (json_string s)) -> 32 <= code x <= 126.
Proof.
  assert (H : forall t, forall x, In x (list_ascii_of_string (json_escape t)) -> 32 <= code x <= 126).
  { induction t as [|c t IH]; intros x Hx; [destruct Hx|].
    cbn [json_escape] in Hx. apply in_list_ascii_app in Hx as [Hx|Hx]; [|exact (IH x Hx)].
    pose proof (json_escape_char_printable c) as E. rewrite forallb_forall in E.
    specialize (E x Hx). apply andb_true_iff in E as [E1 E2].
    apply Nat.leb_le in E1, E2. lia. }
  intros x Hx. unfold json_string in Hx. cbn [dq append list_ascii_of_string In] in Hx.
  destruct Hx as [<-|Hx]; [cbn; lia|].
  apply in_list_ascii_app in Hx as [Hx|Hx]; [exact (H s x Hx)|].
  destruct Hx as [<-|[]]. cbn. lia.
Qed.

(** * Instances at the sample collaborators *)

Lemma run_defers_ungrounded_final_answer_witness :
  (history_blocks new_agent = []
   /\ extract_section reply_final "FINAL ANSWER" <> EmptyString
   /\ exists st',
        run_step sample_json_float sample_literal_eval sample_tables sample_db_execute
          0 reply_final new_agent
        = StepNext (EvNoEvidence (extract_section reply_final "THOUGHT")) st'
        /\ history_blocks st' = [no_evidence_block (extract_section reply_final "THOUGHT")])
  /\ (exists a st' evs,
        run_loop sample_json_float sample_literal_eval sample_tables sample_db_execute
          3 0 replies_first_question new_agent = Returned a st' evs
        /\ (a = max_step_message st'
            \/ (history_blocks st' <> []
                /\ exists k, a = extract_section (replies_first_question k) "FINAL ANSWER"))).
Proof.
  split.
  - split; [reflexivity|]. split; [vm_compute; discriminate|].
    apply (proj1 (run_defers_ungrounded_final_answer sample_json_float sample_literal_eval
                    sample_tables sample_db_execute) 0 reply_final new_agent);
      [reflexivity|vm_compute; discriminate].
  - destruct (run_loop sample_json_float sample_literal_eval sample_tables sample_db_execute
                3 0 replies_first_question new_agent) as [a st' evs|e st' evs] eqn:E.
    + exists a, st', evs. split; [reflexivity|].
      exact (proj2 (run_defers_ungrounded_final_answer sample_json_float sample_literal_eval
                      sample_tables sample_db_execute) 3 0 replies_first_question new_agent
               st' a evs E).
    + vm_compute in E. discriminate.
Defined.

Lemma validate_sql_forbidden_keywords_witness :
  (In "DROP" forbidden
   /\ whole_word "DROP" (query_upper "SELECT * FROM sample WHERE 1;(DROP)")
   /\ fst (validate_sql "SELECT * FROM sample WHERE 1;(DROP)" ["sample"]) = false)
  /\ ((forall kw, In kw forbidden -> ~ whole_word kw (query_upper "SELECT DROPBOX FROM sample"))
      /\ first_forbidden forbidden (query_upper "SELECT DROPBOX FROM sample") = None).
Proof.
  assert (Hw : whole_word "DROP" (query_upper "SELECT * FROM sample WHERE 1;(DROP)")).
  { exists "SELECT * FROM SAMPLE WHERE 1;(", ")". split; [reflexivity|split; reflexivity]. }
  assert (Hn : forall kw, In kw forbidden ->
                 ~ whole_word kw (query_upper "SELECT DROPBOX FROM sample")).
  { intros kw Hin H.
    destruct (proj1 (Forall_forall _ _) forbidden_words kw Hin) as [Hne Hkw].
    apply (search_bounded_spec kw _ Hne Hkw) in H. revert H.
    repeat (destruct Hin as [<-|Hin]; [vm_compute; discriminate|]). destruct Hin. }
  split.
  - split; [cbn; tauto|]. split; [exact Hw|].
    exact (proj1 validate_sql_forbidden_keywords _ ["sample"] "DROP" ltac:(cbn; tauto) Hw).
  - split; [exact Hn|]. exact (proj2 validate_sql_forbidden_keywords _ Hn).
Defined.

Lemma validate_sql_captured_tables_allowed_witness :
  (validate_sql "SELECT * FROM emp JOIN sample" sample_tables
     = (true, "SELECT * FROM emp JOIN sample LIMIT 100")
   /\ forall t, In t (tables_in_query (query_upper "SELECT * FROM emp JOIN sample")) ->
                In (table_clean t) (map upper sample_tables))
  /\ (tables_in_query (query_upper "SELECT * FROM emp JOIN ghost JOIN other")
      = ["EMP"; "GHOST"; "OTHER"]
      /\ validate_sql "SELECT * FROM emp JOIN ghost JOIN other" sample_tables
         = (false, unknown_table_msg "GHOST" sample_tables))
  /\ (In "sample" (tables_in_query "SELECT * FROM sample")
      /\ table_clean "sample" = "sample").
Proof.
  destruct validate_sql_captured_tables_allowed as (H1 & H2 & H3 & _).
  assert (Hv : validate_sql "SELECT * FROM emp JOIN sample" sample_tables
                 = (true, "SELECT * FROM emp JOIN sample LIMIT 100")) by (vm_compute; reflexivity).
  assert (Ht : tables_in_query (query_upper "SELECT * FROM emp JOIN ghost JOIN other")
               = ["EMP"; "GHOST"; "OTHER"]) by (vm_compute; reflexivity).
  assert (Hi : In "sample" (tables_in_query "SELECT * FROM sample")) by (vm_compute; tauto).
  split; [split; [exact Hv|exact (H1 _ sample_tables _ Hv)]|]. split.
  - split; [exact Ht|].
    apply (H2 _ sample_tables ["EMP"] ["OTHER"] "GHOST").
    + vm_compute. reflexivity.
    + vm_compute. reflexivity.
    + exact Ht.
    + constructor; [vm_compute; tauto|constructor].
    + vm_compute. intuition discriminate.
  - split; [exact Hi|]. exact (proj2 (proj2 (H3 _ _ Hi))).
Defined.

Lemma run_step_unknown_tool_raises_witness :
  extract_section reply_unknown_tool "FINAL ANSWER" = EmptyString
  /\ parse_action sample_json_float sample_literal_eval reply_unknown_tool = Ok ("foo", [])
  /\ ~ In "foo" tool_names
  /\ exists st',
       run_step sample_json_float sample_literal_eval sample_tables sample_db_execute
         0 reply_unknown_tool new_agent
       = StepRaise (mk_exn "ValueError" ("Tool '" ++ "foo" ++ "' not found")) st'
       /\ history_blocks st' = history_blocks new_agent.
Proof.
  assert (Hf : extract_section reply_unknown_tool "FINAL ANSWER" = EmptyString)
    by (vm_compute; reflexivity).
  assert (Hp : parse_action sample_json_float sample_literal_eval reply_unknown_tool
               = Ok ("foo", [])) by (vm_compute; reflexivity).
  assert (Hn : ~ In "foo" tool_names) by (vm_compute; intuition discriminate).
  split; [exact Hf|]. split; [exact Hp|]. split; [exact Hn|].
  exact (run_step_unknown_tool_raises sample_json_float sample_literal_eval sample_tables
           sample_db_execute 0 reply_unknown_tool new_agent "foo" [] Hf Hp Hn).
Defined.

(** C5 (as the code has it): the row cap is skipped whenever [LIMIT] occurs
    anywhere in the uppercased text, also inside an identifier, so
    [SELECT speed_limit FROM sample] is accepted with no LIMIT clause; and
    the cap is appended after a trailing [--] comment, where it does not
    apply. *)
Theorem validate_sql_limit_substring :
  search_bounded "LIMIT" (query_upper "SELECT speed_limit FROM sample") = false
  /\ validate_sql "SELECT speed_limit FROM sample" ["sample"]
     = (true, "SELECT speed_limit FROM sample")
  /\ validate_sql "SELECT * FROM sample -- all rows" ["sample"]
     = (true, "SELECT * FROM sample -- all rows LIMIT 100").
Proof. split; [|split]; vm_compute; reflexivity. Qed.

Lemma run_step_delete_rejected_witness :
  extract_section reply_delete "FINAL ANSWER" = EmptyString
  /\ parse_action sample_json_float sample_literal_eval reply_delete
     = Ok ("query_database", [(PStr "query", PStr "DELETE FROM sample")])
  /\ exists st',
       run_step sample_json_float sample_literal_eval sample_tables sample_db_execute
         0 reply_delete new_agent
       = StepNext (EvDispatch (extract_section reply_delete "THOUGHT") "query_database"
                     [(PStr "query", PStr "DELETE FROM sample")] delete_observation) st'
       /\ history_blocks st'
          = (history_blocks new_agent ++
             [dispatch_block (extract_section reply_delete "THOUGHT") "query_database"
                [(PStr "query", PStr "DELETE FROM sample")] delete_observation])%list
       /\ cache st' = cache new_agent.
Proof.
  assert (Hf : extract_section reply_delete "FINAL ANSWER" = EmptyString)
    by (vm_compute; reflexivity).
  assert (Hp : parse_action sample_json_float sample_literal_eval reply_delete
               = Ok ("query_database", [(PStr "query", PStr "DELETE FROM sample")]))
    by (vm_compute; reflexivity).
  split; [exact Hf|]. split; [exact Hp|].
  exact (run_step_delete_rejected sample_json_float sample_literal_eval sample_tables
           sample_db_execute 0 reply_delete new_agent Hf Hp).
Defined.

(** C7, refuted as stated: a FINAL ANSWER on the first step of a fresh agent
    leaves a trace block although no tool was dispatched. *)
Lemma run_no_evidence_block_counterexample :
  result_events (run sample_json_float sample_literal_eval sample_tables sample_db_execute
                   1 (fun _ => reply_final) new_agent) = [EvNoEvidence EmptyString]
  /\ history_blocks (result_state (run sample_json_float sample_literal_eval sample_tables
                                     sample_db_execute 1 (fun _ => reply_final) new_agent))
     = [no_evidence_block EmptyString].
Proof. split; vm_compute; reflexivity. Qed.



Lemma parse_action_quote_repair_witness :
  contains_ci "ACTION:" ("THOUGHT: I should explore the schema." ++ nl) = false
  /\ parse_action sample_json_float sample_literal_eval
       (("THOUGHT: I should explore the schema." ++ nl) ++ describe_sq_action ++ nl)
     = Ok ("describe_table", [(PStr "table_name", PStr "sample")])
  /\ contains_ci "ACTION:" "THOUGHT: I should explore the schema." = false
  /\ parse_action sample_json_float sample_literal_eval "THOUGHT: I should explore the schema."
     = Err (mk_exn "ValueError" no_action_msg).
Proof.
  assert (H1 : contains_ci "ACTION:" ("THOUGHT: I should explore the schema." ++ nl) = false)
    by (vm_compute; reflexivity).
  assert (H2 : contains_ci "ACTION:" "THOUGHT: I should explore the schema." = false)
    by (vm_compute; reflexivity).
  destruct (parse_action_quote_repair sample_json_float sample_literal_eval)
    as (Hp & _ & _ & Hn).
  split; [exact H1|]. split; [exact (Hp _ nl H1)|]. split; [exact H2|].
  exact (Hn _ H2).
Defined.

(** C10 (as the code has it): with a step limit of 3 and a model that only
    ever names an unregistered tool, [run] raises the registry's
    [ValueError] on its first step instead of returning the step-limit
    summary after 3 steps. *)
Theorem run_unknown_tool_aborts_before_limit :
  (forall k : nat, extract_section ((fun _ => reply_unknown_tool) k) "FINAL ANSWER" = EmptyString)
  /\ exists st',
       run sample_json_float sample_literal_eval sample_tables sample_db_execute
         3 (fun _ => reply_unknown_tool) new_agent
       = Raised (mk_exn "ValueError" "Tool 'foo' not found") st' []
       /\ history_blocks st' = [].
Proof.
  split; [intro k; vm_compute; reflexivity|].
  eexists. split; [vm_compute; reflexivity|reflexivity].
Qed.

(** * Instances of the further properties *)

Lemma truncate_text_shape_witness :
  truncate_text "hello" 10 = "hello"
  /\ exists p, truncate_text "hello world" 5 = p ++ " ...[truncated]"
               /\ prefix p "hello world" = true /\ Z.of_nat (String.length p) = 5%Z.
Proof.
  destruct (truncate_text_shape "hello" 10) as [H1 _].
  destruct (truncate_text_shape "hello world" 5) as [_ H2].
  split; [apply H1; cbn; lia|].
  destruct H2 as (p & Hp & Hpre & Hl); [cbn; lia|].
  exists p. split; [exact Hp|]. split; [exact Hpre|]. exact Hl.
Defined.

Lemma sanitize_identifier_accepts_witness :
  sanitize_identifier ("sample" ++ nl) = Ok ("sample" ++ nl)
  /\ exists msg, sanitize_identifier "1abc" = Err (mk_exn "ValueError" msg).
Proof.
  split.
  - apply (proj1 (sanitize_identifier_accepts ("sample" ++ nl))).
    exists "s"%char, "ample". split; [reflexivity|]. split; [|right; reflexivity].
    intros x Hx. repeat (destruct Hx as [<-|Hx]; [reflexivity|]). destruct Hx.
  - apply (proj2 (sanitize_identifier_accepts "1abc")). vm_compute. discriminate.
Defined.

Lemma retry_with_backoff_outcomes_witness :
  retry_with_backoff fails_twice 0
    = (Err (mk_exn "TypeError" "exceptions must derive from BaseException"), [])
  /\ (fst (retry_with_backoff fails_twice 4) = Ok 7%Z
      /\ retry_calls (snd (retry_with_backoff fails_twice 4)) = [0; 1; 2]
      /\ retry_sleeps (snd (retry_with_backoff fails_twice 4)) = [0; 1])
  /\ (fst (retry_with_backoff always_fails 3) = Err (mk_exn "RuntimeError" "boom")
      /\ retry_calls (snd (retry_with_backoff always_fails 3)) = [0; 1; 2]
      /\ retry_sleeps (snd (retry_with_backoff always_fails 3)) = [0; 1]).
Proof.
  destruct (retry_with_backoff_outcomes fails_twice 0) as (H0 & _ & _).
  destruct (retry_with_backoff_outcomes fails_twice 4) as (_ & Hs & _).
  destruct (retry_with_backoff_outcomes always_fails 3) as (_ & _ & Hf).
  split; [apply H0; lia|]. split.
  - apply (Hs 2 7%Z); [|reflexivity|lia].
    intros i Hi. destruct i as [|[|i]]; [eexists; reflexivity|eexists; reflexivity|lia].
  - apply Hf; [lia| |reflexivity]. intros i _. eexists. reflexivity.
Defined.

Lemma parse_action_dumps_round_trip_witness :
  exists J, json_dumps (PDict [(PStr "table_name", PStr "sample")]) = Ok J
   /\ parse_action sample_json_float sample_literal_eval
        (("THOUGHT: look at it" ++ nl) ++ "ACTION: " ++ "describe_table" ++ J ++ " done")
      = Ok ("describe_table", [(PStr "table_name", PStr "sample")]).
Proof.
  destruct (parse_action_dumps_round_trip sample_json_float sample_literal_eval
              "table_name" "sample") as (J & HJ & Hp).
  - intros c Hc. repeat (destruct Hc as [<-|Hc]; [discriminate|]). destruct Hc.
  - intros c Hc. repeat (destruct Hc as [<-|Hc]; [discriminate|]). destruct Hc.
  - exists J. split; [exact HJ|]. apply Hp; [reflexivity|discriminate|].
    intros c Hc. repeat (destruct Hc as [<-|Hc]; [reflexivity|]). destruct Hc.
Defined.

Lemma describe_table_alias_rejected_witness :
  exists msg, _call_tool sample_tables sample_db_execute empty_cache "describe_table"
                [(PStr "table", PStr "sample")]
              = Ok (error_text (mk_exn "TypeError" msg),
                    [(PStr "table", PStr "sample"); (PStr "table_name", PStr "sample")],
                    empty_cache).
Proof.
  exact (describe_table_alias_rejected sample_tables sample_db_execute empty_cache
           [(PStr "table", PStr "sample")] (PStr "sample") eq_refl).
Defined.

Lemma describe_table_caches_witness :
  exists obs, _call_tool sample_tables sample_db_execute empty_cache "describe_table"
                [(PStr "table_name", PStr "sample")]
    = Ok (obs, [(PStr "table_name", PStr "sample")],
          mk_cache (PList []) [(PStr "sample", PList [PStr "id"; PStr "city"])]
                   [(PStr "sample", PInt 1000)]).
Proof.
  apply (describe_table_caches sample_tables sample_db_execute empty_cache "sample"
           ["cid"; "name"; "type"; "notnull"; "dflt_value"; "pk"] ["n"]
           [[PInt 0; PStr "id"; PStr "INTEGER"; PInt 0; PNone; PInt 1];
            [PInt 1; PStr "city"; PStr "TEXT"; PInt 0; PNone; PInt 0]] [] [] 1000%Z).
  - discriminate.
  - reflexivity.
  - repeat constructor; cbn; lia.
  - reflexivity.
Defined.

Lemma list_tables_call_witness :
  _call_tool sample_tables sample_db_execute empty_cache "list_tables" []
    = Ok (stake 2000 (py_repr (PList [PStr "emp"; PStr "sample"])), [],
          mk_cache (PList [PStr "emp"; PStr "sample"]) [] [])
  /\ exists msg, _call_tool sample_tables sample_db_execute empty_cache "list_tables"
                   [(PStr "table", PStr "emp")]
                 = Ok (error_text (mk_exn "TypeError" msg), [(PStr "table", PStr "emp")], empty_cache).
Proof.
  destruct (list_tables_call sample_tables sample_db_execute empty_cache []) as [H1 _].
  destruct (list_tables_call sample_tables sample_db_execute empty_cache
              [(PStr "table", PStr "emp")]) as [_ H2].
  split; [exact (H1 eq_refl)|]. apply H2. discriminate.
Defined.

Lemma render_output_bounded_witness :
  render_output (PList [PStr "emp"; PStr "sample"]) = Ok "['emp', 'sample']"
  /\ String.length "['emp', 'sample']" <= 2015.
Proof.
  split; [vm_compute; reflexivity|].
  apply (render_output_bounded (PList [PStr "emp"; PStr "sample"])). vm_compute. reflexivity.
Defined.

Lemma query_database_keeps_cache_witness :
  exists r, _call_tool sample_tables sample_db_execute empty_cache "query_database"
              [(PStr "query", PStr "SELECT * FROM sample")] = Ok r
            /\ snd r = empty_cache.
Proof.
  destruct (_call_tool sample_tables sample_db_execute empty_cache "query_database"
              [(PStr "query", PStr "SELECT * FROM sample")]) as [[[o a] c']|e] eqn:E.
  - exists (o, a, c'). split; [reflexivity|].
    exact (query_database_keeps_cache sample_tables sample_db_execute empty_cache _ o a c' E).
  - vm_compute in E. discriminate E.
Defined.



Lemma validate_sql_accepted_text_witness :
  validate_sql "  select * from sample;  " sample_tables = (true, "select * from sample LIMIT 100")
  /\ prefix "SELECT" (upper "select * from sample LIMIT 100") = true
  /\ count_char ";" "select * from sample LIMIT 100" <= 1
  /\ last_opt "select * from sample LIMIT 100" <> Some ";"%char.
Proof.
  assert (Hv : validate_sql "  select * from sample;  " sample_tables
               = (true, "select * from sample LIMIT 100")) by (vm_compute; reflexivity).
  destruct (validate_sql_accepted_text _ _ _ Hv) as (_ & H1 & H2 & H3).
  split; [exact Hv|]. split; [exact H1|]. split; [exact H2|exact H3].
Defined.

Lemma json_string_printable_witness :
  In "n"%char (list_ascii_of_string (json_string nl)) /\ 32 <= code "n"%char <= 126.
Proof.
  assert (H : In "n"%char (list_ascii_of_string (json_string nl))) by (vm_compute; tauto).
  split; [exact H|exact (json_string_printable nl "n"%char H)].
Defined.
